(** * nana: a shallow embedding of the validation engine (index.ts)

    The development follows the TypeScript source of the library:
    [makeCtx], [formatValue], [createValidator], [pipe], [transform],
    [check], [validate], [required], [optional], the primitive guards,
    [object] and [array].

    A validator is a JavaScript function [(value, ctx) => output] that may
    throw and may mutate the context object it is handed (the only mutable
    part the library itself touches is the transient [__abortPipe] flag).
    It is embedded as a function from the value and the state of that
    context object to a completion (normal or thrown) and the state of the
    same object afterwards.

    index.js, the plain JavaScript build of an earlier version (no
    [required], no [optional], no abort flag), has the same [makeCtx],
    [formatValue], [createValidator], [transform], [validate], guards,
    [object] and [array]; its [pipe] and [check], which differ, are in the
    module [IndexJs]. *)

From Stdlib Require Import ZArith String Ascii List Bool Lia DecimalString.
Import ListNotations.

Set Warnings "-register-all".

Local Open Scope list_scope.
Local Open Scope string_scope.

(** The type of strings; the library has a validator called [string]. *)
Abbreviation str := String.string.

(* ================================================================== *)
(** ** JavaScript values and the runtime operations the source uses *)
(* ================================================================== *)

Module Js.

(** The values of the model: the primitives, functions (known by their
    [name] and source text, their call behaviour lives in the embedding),
    arrays, plain objects (own enumerable string-keyed properties, in
    property order; their prototype is [Object.prototype]) and
    [Object.prototype] itself, which a plain object hands out as its
    [__proto__].  Numbers are the integer-valued ones; host objects
    (RegExp, Date, class instances) are not values of the model. *)
Inductive Value : Type :=
| VUndefined
| VNull
| VBool (b : bool)
| VNum (n : Z)
| VBigInt (n : Z)
| VStr (s : str)
| VSymbol (description : str)
| VFunc (name : str) (source : str)
| VArr (items : list Value)
| VObj (props : list (str * Value))
| VObjectPrototype.

(** [typeof value] *)
Definition typeof (value : Value) : str :=
  match value with
  | VUndefined => "undefined"
  | VNull => "object"
  | VBool _ => "boolean"
  | VNum _ => "number"
  | VBigInt _ => "bigint"
  | VStr _ => "string"
  | VSymbol _ => "symbol"
  | VFunc _ _ => "function"
  | VArr _ => "object"
  | VObj _ => "object"
  | VObjectPrototype => "object"
  end.

(** [Array.isArray(value)] *)
Definition isArray (value : Value) : bool :=
  match value with VArr _ => true | _ => false end.

(** [value == null]: loose equality with null holds of null and
    undefined only. *)
Definition eq_null (value : Value) : bool :=
  match value with VUndefined | VNull => true | _ => false end.

(** [value === null] *)
Definition is_null (value : Value) : bool :=
  match value with VNull => true | _ => false end.

(** [value === true] *)
Definition is_true (value : Value) : bool :=
  match value with VBool true => true | _ => false end.

(** Truthiness of a string: every string but the empty one. *)
Definition truthy_str (s : str) : bool :=
  match s with EmptyString => false | String _ _ => true end.

(** Truthiness of an optional string property or argument
    ([undefined] when absent). *)
Definition truthy_opt (o : option str) : bool :=
  match o with None => false | Some s => truthy_str s end.

(** Truthiness of an optional boolean property. *)
Definition truthy_flag (o : option bool) : bool :=
  match o with Some true => true | _ => false end.

(** Decimal rendering of a bigint, and of an integer-valued number (of
    magnitude below 10^21, where JavaScript writes all the digits). *)
Definition Number_toString (n : Z) : str :=
  NilZero.string_of_int (Z.to_int n).

(** [xs.join(sep)] on strings. *)
Fixpoint join (sep : str) (xs : list str) : str :=
  match xs with
  | [] => EmptyString
  | [x] => x
  | x :: rest => x ++ sep ++ join sep rest
  end.

(** A function of the runtime, as a value: its name and the source text
    that the runtime shows for it. *)
Definition native (name : str) : Value :=
  VFunc name ("function " ++ name ++ "() { [native code] }").

(** The names of the methods that [Object.prototype] owns. *)
Definition Object_prototype_methods : list str :=
  ["__defineGetter__"; "__defineSetter__"; "hasOwnProperty";
   "__lookupGetter__"; "__lookupSetter__"; "isPrototypeOf";
   "propertyIsEnumerable"; "toString"; "valueOf"; "toLocaleString"].

(** The data properties of [Object.prototype]: [constructor], which is
    the function [Object], and its methods.  The twelfth property,
    [__proto__], is an accessor and is read and written below. *)
Definition Object_prototype_member (key : str) : option Value :=
  if String.eqb key "constructor" then Some (native "Object")
  else if existsb (String.eqb key) Object_prototype_methods
       then Some (native key)
       else None.

(** A key that [Object.prototype] defines. *)
Definition on_Object_prototype (key : str) : bool :=
  match Object_prototype_member key with
  | Some _ => true
  | None => String.eqb key "__proto__"
  end.

(** [value[key]] on the properties of a plain object: the own binding of
    the key; when there is none, the member inherited from
    [Object.prototype] (a data property, or [__proto__], whose getter
    answers with the prototype of the object); [undefined] when there is
    none either. *)
Fixpoint GetProp (props : list (str * Value)) (key : str) : Value :=
  match props with
  | [] =>
      match Object_prototype_member key with
      | Some member => member
      | None =>
          if String.eqb key "__proto__" then VObjectPrototype else VUndefined
      end
  | (k, v) :: rest => if String.eqb k key then v else GetProp rest key
  end.

(** [value[key]] on an object that is not an array, which is what
    [object] reads once a value has passed its check: a plain object, or
    [Object.prototype], whose own [__proto__] answers [null] (it has no
    prototype).  The last case is never reached by such a read. *)
Definition Get (value : Value) (key : str) : Value :=
  match value with
  | VObj props => GetProp props key
  | VObjectPrototype =>
      match Object_prototype_member key with
      | Some member => member
      | None => if String.eqb key "__proto__" then VNull else VUndefined
      end
  | _ => VUndefined
  end.

(** [obj[key] = v] on the properties of a plain object: overwrite the
    binding in place when the key is there, append it otherwise.  The
    one key that gets no binding is [__proto__] when the object does not
    own it: the assignment then runs the setter inherited from
    [Object.prototype], which creates no property.  (Handed an object or
    null the setter changes the prototype of [obj]; the own properties
    stay as they are, and an object with another prototype is not among
    the values of the model.) *)
Fixpoint SetProp (props : list (str * Value)) (key : str) (v : Value)
  : list (str * Value) :=
  match props with
  | [] => if String.eqb key "__proto__" then [] else [(key, v)]
  | (k, w) :: rest =>
      if String.eqb k key then (k, v) :: rest
      else (k, w) :: SetProp rest key v
  end.

(** A property key as [makeCtx] receives it: [string | number | null]. *)
Inductive Key : Type :=
| KNull
| KNum (n : Z)
| KStr (s : str).

(** [typeof key === 'number'] *)
Definition key_is_number (key : Key) : bool :=
  match key with KNum _ => true | _ => false end.

(** A key inside a template literal: [`${key}`]. *)
Definition key_text (key : Key) : str :=
  match key with
  | KNull => "null"
  | KNum n => Number_toString n
  | KStr s => s
  end.

(** An [Error] object with the optional properties of the interface
    [ValidationError]; a property that was never assigned is [None]. *)
Module ValidationError.
Record t : Type := mk {
  message : str;
  expected : option str;
  actual : option Value;
  path : option str;
  key : option Key;
  parent : option Value;
  root : option Value
}.
End ValidationError.

(** [new Error(message)] (also the [TypeError]s of the runtime, which are
    [Error]s for [instanceof]). *)
Definition new_Error (message : str) : ValidationError.t :=
  ValidationError.mk message None None None None None None.

(** What a [throw] carries: an [Error] object or any other value. *)
Inductive Thrown : Type :=
| ThrownError (e : ValidationError.t)
| ThrownValue (v : Value).

(** The completion of a call: it returns or it throws. *)
Inductive Completion (A : Type) : Type :=
| Normal (a : A)
| Throw (t : Thrown).
Arguments Normal {A} a.
Arguments Throw {A} t.

(** The two TypeErrors of the conversions below (V8's messages). *)
Definition Symbol_TypeError : Thrown :=
  ThrownError (new_Error "Cannot convert a Symbol value to a string").

Definition BigInt_TypeError : Thrown :=
  ThrownError (new_Error "Do not know how to serialize a BigInt").

(** The abstract operation ToString: [None] is the TypeError on a symbol.
    An array is joined with commas, its null and undefined members
    written as the empty string.  An object is converted by the
    [toString] it inherits from [Object.prototype]; a [toString] or
    [valueOf] of its own would be a function of the user, which a value
    of the model does not run. *)
Fixpoint ToString (value : Value) : option str :=
  match value with
  | VUndefined => Some "undefined"
  | VNull => Some "null"
  | VBool b => Some (if b then "true" else "false")
  | VNum n => Some (Number_toString n)
  | VBigInt n => Some (Number_toString n)
  | VStr s => Some s
  | VSymbol _ => None
  | VFunc _ source => Some source
  | VArr items =>
      match
        (fix members (l : list Value) : option (list str) :=
           match l with
           | [] => Some []
           | x :: l' =>
               match
                 match x with
                 | VUndefined | VNull => Some EmptyString
                 | _ => ToString x
                 end,
                 members l'
               with
               | Some text, Some parts => Some (text :: parts)
               | _, _ => None
               end
           end) items
      with
      | Some parts => Some (join "," parts)
      | None => None
      end
  | VObj _ => Some "[object Object]"
  | VObjectPrototype => Some "[object Object]"
  end.

(** [String(value)]: a symbol is described, every other value goes
    through ToString. *)
Definition String_ (value : Value) : Completion str :=
  match value with
  | VSymbol description => Normal ("Symbol(" ++ description ++ ")")
  | _ =>
      match ToString value with
      | Some text => Normal text
      | None => Throw Symbol_TypeError
      end
  end.

(** The double quote character as a string. *)
Definition dquote : str := String (ascii_of_nat 34) EmptyString.

Definition hex_digit (n : nat) : ascii :=
  nth n (list_ascii_of_string "0123456789abcdef") "0"%char.

(** One character of a string inside [JSON.stringify]'s output. *)
Definition QuoteJSONChar (c : ascii) : str :=
  let n := nat_of_ascii c in
  if Nat.eqb n 34 then "\" ++ dquote
  else if Nat.eqb n 92 then "\\"
  else if Nat.eqb n 8 then "\b"
  else if Nat.eqb n 9 then "\t"
  else if Nat.eqb n 10 then "\n"
  else if Nat.eqb n 12 then "\f"
  else if Nat.eqb n 13 then "\r"
  else if Nat.ltb n 32 then
    "\u00" ++ String (hex_digit (n / 16)) (String (hex_digit (n mod 16)) EmptyString)
  else String c EmptyString.

Fixpoint QuoteJSONBody (s : str) : str :=
  match s with
  | EmptyString => EmptyString
  | String c rest => QuoteJSONChar c ++ QuoteJSONBody rest
  end.

Definition QuoteJSONString (s : str) : str :=
  dquote ++ QuoteJSONBody s ++ dquote.

(** What [JSON.stringify(value)] does: it returns a text, or [undefined]
    (undefined, functions and symbols have no JSON text), or it throws the
    TypeError that a bigint anywhere in the value causes. *)
Inductive JSONResult : Type :=
| JSONText (text : str)
| JSONUndefined
| JSONBigInt.

(** [JSON.stringify(value)].  In an array a member without JSON text is
    written [null]; in an object its property is left out.  A [toJSON]
    member would be a function of the user, which a value of the model
    does not run: the text is the one of a value in which no object has
    such a method (see [has_toJSON]). *)
Fixpoint JSON_stringify (value : Value) : JSONResult :=
  match value with
  | VUndefined | VSymbol _ | VFunc _ _ => JSONUndefined
  | VNull => JSONText "null"
  | VBool b => JSONText (if b then "true" else "false")
  | VNum n => JSONText (Number_toString n)
  | VBigInt _ => JSONBigInt
  | VStr s => JSONText (QuoteJSONString s)
  | VArr items =>
      match
        (fix members (l : list Value) : option (list str) :=
           match l with
           | [] => Some []
           | x :: l' =>
               match JSON_stringify x, members l' with
               | JSONText text, Some parts => Some (text :: parts)
               | JSONUndefined, Some parts => Some ("null" :: parts)
               | _, _ => None
               end
           end) items
      with
      | Some parts => JSONText ("[" ++ join "," parts ++ "]")
      | None => JSONBigInt
      end
  | VObj props =>
      match
        (fix members (l : list (str * Value)) : option (list str) :=
           match l with
           | [] => Some []
           | (k, x) :: l' =>
               match JSON_stringify x, members l' with
               | JSONText text, Some parts =>
                   Some ((QuoteJSONString k ++ ":" ++ text) :: parts)
               | JSONUndefined, Some parts => Some parts
               | _, _ => None
               end
           end) props
      with
      | Some parts => JSONText ("{" ++ join "," parts ++ "}")
      | None => JSONBigInt
      end
  | VObjectPrototype => JSONText "{}"
  end.

End Js.
Import Js.

(* ================================================================== *)
(** ** The library *)
(* ================================================================== *)

(** The interface [Ctx].  [__abortPipe] is the optional transient flag:
    [None] when the property is absent. *)
Module Ctx.
Record t : Type := mk {
  path : str;
  key : Key;
  parent : Value;
  root : Value;
  value : Value;
  __abortPipe : option bool
}.

(** [ctx.__abortPipe = b] *)
Definition set_abortPipe (b : bool) (ctx : t) : t :=
  mk (path ctx) (key ctx) (parent ctx) (root ctx) (value ctx) (Some b).

(** [delete ctx.__abortPipe] *)
Definition delete_abortPipe (ctx : t) : t :=
  mk (path ctx) (key ctx) (parent ctx) (root ctx) (value ctx) None.
End Ctx.

(** Code that runs against one context object, which it may mutate, and
    that returns or throws: the state is the context object of the call. *)
Definition M (A : Type) : Type := Ctx.t -> Completion A * Ctx.t.

Definition ret {A : Type} (a : A) : M A :=
  fun ctx => (Normal a, ctx).

Definition bind {A B : Type} (m : M A) (k : A -> M B) : M B :=
  fun ctx =>
    match m ctx with
    | (Normal a, ctx') => k a ctx'
    | (Throw t, ctx') => (Throw t, ctx')
    end.

Notation "x <- m ;; k" := (bind m (fun x => k))
  (at level 61, m at next level, right associativity).
Notation "m ;;; k" := (bind m (fun _ => k))
  (at level 61, right associativity).

(** [throw t] *)
Definition throw {A : Type} (t : Thrown) : M A :=
  fun ctx => (Throw t, ctx).

(** The context object of the call, as it is now. *)
Definition this_ctx : M Ctx.t :=
  fun ctx => (Normal ctx, ctx).

(** A mutation of the context object of the call. *)
Definition modify_ctx (f : Ctx.t -> Ctx.t) : M unit :=
  fun ctx => (Normal tt, f ctx).

(** A computation that does not touch the context. *)
Definition lift {A : Type} (c : Completion A) : M A :=
  fun ctx => (c, ctx).

(** [try { m } catch (err) { handler err }] *)
Definition try_catch {A : Type} (m : M A) (handler : Thrown -> M A) : M A :=
  fun ctx =>
    match m ctx with
    | (Normal a, ctx') => (Normal a, ctx')
    | (Throw t, ctx') => handler t ctx'
    end.

(** A call made with another context object, [childCtx], freshly built by
    the caller and dropped after the call: the caller's own context object
    is not reachable from it and stays as it is. *)
Definition call_with {A : Type} (childCtx : Ctx.t) (m : M A) : M A :=
  fun ctx => (fst (m childCtx), ctx).

(** [type Validator = (value, ctx) => Output] *)
Definition Validator : Type := Value -> M Value.

(** A function value [(value, ctx) => ...] with its [name] property
    (the empty string for an anonymous function). *)
Module Fn.
Record t : Type := mk {
  name : str;
  call : Value -> M Value
}.
End Fn.

(** [makeCtx(parentCtx, key, value)]; [parentCtx] is [None] for [null].
    The fourth, optional parameter [root] of the TypeScript signature is
    never read by the body. *)
Definition makeCtx (parentCtx : option Ctx.t) (key : Key) (value : Value)
  : Ctx.t :=
  let path :=
    match parentCtx with
    | None => "$"
    | Some p =>
        if key_is_number key
        then Ctx.path p ++ "[" ++ key_text key ++ "]"
        else Ctx.path p ++ "." ++ key_text key
    end in
  Ctx.mk path key
    (match parentCtx with Some p => Ctx.value p | None => VNull end)
    (match parentCtx with Some p => Ctx.root p | None => value end)
    value
    None.

(** [formatValue(value)], branch by branch.  The branches for RegExp and
    Date concern host objects, which the model has no values for;
    [JSON.stringify] returns a string on every array and plain object it
    does not throw on; the final [Object.prototype.toString.call(value)]
    is reached by the one object of the model whose prototype is not
    [Object.prototype]. *)
Definition formatValue (value : Value) : Completion str :=
  match value with
  | VNull | VUndefined => String_ value
  | VStr s => Normal s
  | VNum _ | VBool _ | VBigInt _ => String_ value
  | VSymbol _ => String_ value
  | VFunc name _ =>
      let name' := if truthy_str name then ": " ++ name else EmptyString in
      Normal ("[Function" ++ name' ++ "]")
  | VArr _ | VObj _ =>
      match JSON_stringify value with
      | JSONText text => Normal text
      | JSONUndefined => Normal "undefined"
      | JSONBigInt => Throw BigInt_TypeError
      end
  | VObjectPrototype => Normal "[object Object]"
  end.

(** The assignments of the [catch] block of [createValidator]. *)
Definition stamp (name : str) (value : Value) (ctx : Ctx.t)
  (error : ValidationError.t) : ValidationError.t :=
  ValidationError.mk (ValidationError.message error)
    (Some name) (Some value)
    (Some (Ctx.path ctx)) (Some (Ctx.key ctx))
    (Some (Ctx.parent ctx)) (Some (Ctx.root ctx)).

(** [err instanceof Error ? err : new Error(String(err))] *)
Definition as_Error (err : Thrown) : Completion ValidationError.t :=
  match err with
  | ThrownError e => Normal e
  | ThrownValue v =>
      match String_ v with
      | Normal text => Normal (new_Error text)
      | Throw t => Throw t
      end
  end.

(** [if (!error.expected) { ... }]: the error is stamped unless its
    [expected] is truthy already. *)
Definition enrich (name : str) (value : Value) (ctx : Ctx.t)
  (error : ValidationError.t) : ValidationError.t :=
  if negb (truthy_opt (ValidationError.expected error))
  then stamp name value ctx error
  else error.

(** [createValidator(name, handler)(...args)] *)
Definition createValidator {Args : Type} (name : str)
  (handler : Value -> Args -> M Value) (args : Args) : Validator :=
  fun value =>
    try_catch (handler value args)
      (fun err =>
         error <- lift (as_Error err) ;;
         ctx <- this_ctx ;;
         throw (ThrownError (enrich name value ctx error))).

(** The loop of [pipe]: [for (const validator of validators)
    { if (ctx.__abortPipe) break; value = validator(value, ctx) }]. *)
Fixpoint pipe_loop (validators : list Validator) (value : Value) : M Value :=
  match validators with
  | [] => ret value
  | validator :: rest =>
      ctx <- this_ctx ;;
      if truthy_flag (Ctx.__abortPipe ctx) then ret value
      else
        value' <- validator value ;;
        pipe_loop rest value'
  end.

(** [pipe(...validators)] *)
Definition pipe (validators : list Validator) : Validator :=
  createValidator "pipe"
    (fun value (_ : unit) =>
       value' <- pipe_loop validators value ;;
       modify_ctx Ctx.delete_abortPipe ;;;
       ret value')
    tt.

(** [transform(fn)] *)
Definition transform (fn : Fn.t) : Validator :=
  createValidator "transform" (fun value (_ : unit) => Fn.call fn value) tt.

(** The default message [`(${ctx.path}: ${formatValue(value)}) ✖ ${name}`]. *)
Definition default_message (value : Value) (name : str) : M str :=
  ctx <- this_ctx ;;
  text <- lift (formatValue value) ;;
  ret ("(" ++ Ctx.path ctx ++ ": " ++ text ++ ") ✖ " ++ name).

(** [msg || template]: the template is only evaluated when [msg] is
    falsy (left out, or the empty string). *)
Definition msg_or (msg : option str) (template : M str) : M str :=
  match msg with
  | Some m => if truthy_str m then ret m else template
  | None => template
  end.

(** [throw new Error(msg || template)] *)
Definition throw_new_Error {A : Type} (msg : option str) (template : M str)
  : M A :=
  message <- msg_or msg template ;;
  throw (ThrownError (new_Error message)).

(** [check(fn, msg)] *)
Definition check (fn : Fn.t) (msg : option str) : Validator :=
  let expected := if truthy_str (Fn.name fn) then Fn.name fn else "check" in
  createValidator expected
    (fun value (_ : unit) =>
       result <- Fn.call fn value ;;
       if is_true result then ret value
       else throw_new_Error msg (default_message value expected))
    tt.

(** [type ValidateResult] *)
Inductive ValidateResult : Type :=
| Valid (result : Value)
| Invalid (error : Thrown) (result : Value).

(** [validate(schema, value, rootPath = '$')]; [rootPath] is [None] when
    the argument is left out. *)
Definition validate (schema : Validator) (value : Value)
  (rootPath : option str) : ValidateResult :=
  let ctx :=
    Ctx.mk (match rootPath with Some p => p | None => "$" end)
      KNull VNull value value None in
  match schema value ctx with
  | (Normal result, _) => Valid result
  | (Throw error, _) => Invalid error value
  end.

(** [required(msg?)] *)
Definition required : option str -> Validator :=
  createValidator "required"
    (fun value msg =>
       if eq_null value
       then throw_new_Error msg (default_message value "required")
       else ret value).

(** [optional()] *)
Definition optional : unit -> Validator :=
  createValidator "optional"
    (fun value _ =>
       if eq_null value
       then modify_ctx (Ctx.set_abortPipe true) ;;; ret value
       else ret value).

(** The primitive guards [string], [number], [bigint], [boolean] and
    [symbol] are five copies of one body, which differ in the type name
    only: [createValidator(type, (value, ctx, [msg]) => { if (typeof value
    !== type) throw new Error(msg || template); return value })]. *)
Definition primitive_handler (type : str) (value : Value) (msg : option str)
  : M Value :=
  if negb (String.eqb (typeof value) type)
  then throw_new_Error msg (default_message value type)
  else ret value.

Definition primitive (type : str) : option str -> Validator :=
  createValidator type (primitive_handler type).

Definition string : option str -> Validator := primitive "string".
Definition number : option str -> Validator := primitive "number".
Definition bigint : option str -> Validator := primitive "bigint".
Definition boolean : option str -> Validator := primitive "boolean".
Definition symbol : option str -> Validator := primitive "symbol".

(** A shape: the member validators by key, in [for ... in] order. *)
Definition Shape : Type := list (str * Validator).

(** The loop of [object]: [for (const key in shape) { ... }]. *)
Fixpoint object_loop (shape : Shape) (value : Value)
  (result : list (str * Value)) : M (list (str * Value)) :=
  match shape with
  | [] => ret result
  | (key, validator) :: rest =>
      ctx <- this_ctx ;;
      let childCtx := makeCtx (Some ctx) (KStr key) (Get value key) in
      out <- call_with childCtx (validator (Get value key)) ;;
      object_loop rest value (SetProp result key out)
  end.

(** [object(shape, msg?)] *)
Definition object (shape : Shape) (msg : option str) : Validator :=
  createValidator "object"
    (fun value (_ : unit) =>
       if negb (String.eqb (typeof value) "object")
          || is_null value
          || isArray value
       then throw_new_Error msg (default_message value "object")
       else
         result <- object_loop shape value [] ;;
         ret (VObj result))
    tt.

(** [value.map((item, i) => validator(item, makeCtx(ctx, i, item)))],
    from index [i] on. *)
Fixpoint array_map (validator : Validator) (items : list Value) (i : Z)
  : M (list Value) :=
  match items with
  | [] => ret []
  | item :: rest =>
      ctx <- this_ctx ;;
      let childCtx := makeCtx (Some ctx) (KNum i) item in
      out <- call_with childCtx (validator item) ;;
      outs <- array_map validator rest (i + 1) ;;
      ret (out :: outs)
  end.

(** The items that [value.map] goes through. *)
Definition items_of (value : Value) : list Value :=
  match value with VArr items => items | _ => [] end.

(** [array(validator, msg?)] *)
Definition array (validator : Validator) (msg : option str) : Validator :=
  createValidator "array"
    (fun value (_ : unit) =>
       if negb (isArray value)
       then throw_new_Error msg (default_message value "array")
       else
         outs <- array_map validator (items_of value) 0 ;;
         ret (VArr outs))
    tt.


(* ================================================================== *)
(** ** Definitions used to state the properties *)
(* ================================================================== *)

(** One descent as the specification names it: into the member of a
    sequence at an integer index, or into a named member. *)
Inductive Step : Type :=
| Index (i : Z)
| Name (name : str).

Definition key_of (s : Step) : Key :=
  match s with
  | Index i => KNum i
  | Name name => KStr name
  end.

(** A key rendered per its kind: bracketed index, dotted name. *)
Definition render (s : Step) : str :=
  match s with
  | Index i => "[" ++ Number_toString i ++ "]"
  | Name name => "." ++ name
  end.

(** The path the specification assigns to a chain of keys. *)
Definition path_of_keys (keys : list Step) : str :=
  "$" ++ String.concat EmptyString (map render keys).

(** The contexts built along a chain of descents, each by [makeCtx] from
    the one before; the last one is returned. *)
Fixpoint descend (ctx : Ctx.t) (chain : list (Step * Value)) : Ctx.t :=
  match chain with
  | [] => ctx
  | (k, v) :: rest => descend (makeCtx (Some ctx) (key_of k) v) rest
  end.

(** What the [catch] block of [createValidator] throws for [err]: the
    error, stamped or kept; or the TypeError of the conversion of a thrown
    non-error that has no string. *)
Definition rethrown (name : str) (value : Value) (ctx : Ctx.t) (err : Thrown)
  : Thrown :=
  match as_Error err with
  | Normal error => ThrownError (enrich name value ctx error)
  | Throw t => t
  end.

(** An error carries a failure-kind name that the wrapper of
    [createValidator] respects: [expected] is there and is not the empty
    string. *)
Definition stamped (e : ValidationError.t) : Prop :=
  truthy_opt (ValidationError.expected e) = true.

(** The call that [object] makes for the member [key] of a shape, on the
    input [value]: the member's value [value[key]] and a fresh child
    context. *)
Definition member_call (ctx : Ctx.t) (value : Value)
  (key : str) (validator : Validator) : Completion Value :=
  fst (validator (Get value key)
         (makeCtx (Some ctx) (KStr key) (Get value key))).

(** The call that [array] makes for the item at index [i]. *)
Definition item_call (ctx : Ctx.t) (validator : Validator) (i : Z)
  (item : Value) : Completion Value :=
  fst (validator item (makeCtx (Some ctx) (KNum i) item)).

(** A binding of the assembled object is the output of the member of the
    shape at the same position. *)
Definition member_output (ctx : Ctx.t) (value : Value)
  (member : str * Validator) (binding : str * Value) : Prop :=
  fst binding = fst member
  /\ member_call ctx value (fst member) (snd member) = Normal (snd binding).

(** Schemas: validators of any kind at the leaves, under any nesting of the
    three composites. *)
Inductive Schema : Type :=
| Leaf (v : Validator)
| Pipe (steps : list Schema)
| Object (members : list (str * Schema)) (msg : option str)
| Array (item : Schema) (msg : option str).

(** The validator a schema stands for. *)
Fixpoint build (s : Schema) : Validator :=
  match s with
  | Leaf v => v
  | Pipe steps => pipe (map build steps)
  | Object members msg =>
      object (map (fun m => match m with (key, s') => (key, build s') end)
                members) msg
  | Array item msg => array (build item) msg
  end.

Fixpoint depth (s : Schema) : nat :=
  match s with
  | Leaf _ => 0
  | Pipe steps => S (list_max (map depth steps))
  | Object members _ =>
      S (list_max (map (fun m => match m with (_, s') => depth s' end) members))
  | Array item _ => S (depth item)
  end.

(** The structure check of [object], as the source writes it:
    [typeof value !== 'object' || value === null || Array.isArray(value)]. *)
Definition fails_object_check (value : Value) : bool :=
  negb (String.eqb (typeof value) "object") || is_null value || isArray value.

(** Where the failure of a schema run on [value] with the context [ctx]
    is raised: [t0] is what the innermost failing call threw.  The chain
    of calls that leads to it is the one the code makes:
    - at a leaf, the call of the leaf on [value] and [ctx];
    - in a [pipe], the first [k] steps returned, the flag is unset after
      them, and the failure is raised in step [k], run on their output and
      on the same context object;
    - in an [object], on a value that passes the structure check, the
      members before the one at position [i] returned, and the failure is
      raised in that member, run on [value[key]] and the child context;
      on a value that fails the check, the failure is the one of the check;
    - in an [array], alike with the items. *)
Inductive raised_in : Schema -> Value -> Ctx.t -> Thrown -> Prop :=
| raised_leaf v value ctx t0 ctx' :
    v value ctx = (Throw t0, ctx') -> raised_in (Leaf v) value ctx t0
| raised_step steps value ctx k s input c t0 :
    nth_error steps k = Some s ->
    pipe_loop (firstn k (map build steps)) value ctx = (Normal input, c) ->
    truthy_flag (Ctx.__abortPipe c) = false ->
    raised_in s input c t0 ->
    raised_in (Pipe steps) value ctx t0
| raised_member members msg value ctx i key s t0 :
    fails_object_check value = false ->
    nth_error members i = Some (key, s) ->
    (forall j kj sj,
       j < i -> nth_error members j = Some (kj, sj) ->
       exists out, member_call ctx value kj (build sj) = Normal out) ->
    raised_in s (Get value key)
      (makeCtx (Some ctx) (KStr key) (Get value key)) t0 ->
    raised_in (Object members msg) value ctx t0
| raised_object members msg value ctx t0 ctx' :
    fails_object_check value = true ->
    build (Object members msg) value ctx = (Throw t0, ctx') ->
    raised_in (Object members msg) value ctx t0
| raised_item item msg items ctx j x t0 :
    nth_error items j = Some x ->
    (forall i y,
       i < j -> nth_error items i = Some y ->
       exists out, item_call ctx (build item) (Z.of_nat i) y = Normal out) ->
    raised_in item x (makeCtx (Some ctx) (KNum (Z.of_nat j)) x) t0 ->
    raised_in (Array item msg) (VArr items) ctx t0
| raised_array item msg value ctx t0 ctx' :
    isArray value = false ->
    build (Array item msg) value ctx = (Throw t0, ctx') ->
    raised_in (Array item msg) value ctx t0.

(** index.js, the plain JavaScript build of an earlier version of the
    library: its [pipe] chains the steps with no abort flag. *)
Module IndexJs.

(** [validators.reduce((v, validator) => validator(v, ctx), value)] *)
Fixpoint reduce (validators : list Validator) (value : Value) : M Value :=
  match validators with
  | [] => ret value
  | validator :: rest =>
      value' <- validator value ;;
      reduce rest value'
  end.

Definition pipe (validators : list Validator) : Validator :=
  createValidator "pipe" (fun value (_ : unit) => reduce validators value) tt.

(** Its [check] registers under the fixed name [check]; the message is
    built as in the TypeScript source. *)
Definition check (fn : Fn.t) (msg : option str) : Validator :=
  createValidator "check"
    (fun value (_ : unit) =>
       result <- Fn.call fn value ;;
       if is_true result then ret value
       else
         message <- msg_or msg
                      (default_message value
                         (if truthy_str (Fn.name fn) then Fn.name fn
                          else "check")) ;;
         throw (ThrownError (new_Error message)))
    tt.

End IndexJs.

(** Sample data of the specification and of the test-suite. *)
Module Sample.

(** [object({ user: object({ name: string(), age: number() }) })] *)
Definition user_shape : Shape :=
  [("name", string None); ("age", number None)].

Definition user_schema : Validator :=
  object [("user", object user_shape None)] None.

(** [{ user: { name: "nana", age: "bad" } }] *)
Definition bad_user : Value :=
  VObj [("user", VObj [("name", VStr "nana"); ("age", VStr "bad")])].

(** [pipe(optional(), string())] *)
Definition optional_string : Validator :=
  pipe [optional tt; string None].

(** A step written by a user of the library,
    [(value, ctx) => { ctx.__abortPipe = true; throw new Error('boom') }]:
    it asks the pipeline to stop and then fails. *)
Definition abort_then_fail : Validator :=
  fun _ =>
    modify_ctx (Ctx.set_abortPipe true) ;;;
    throw (ThrownError (new_Error "boom")).

(** [createValidator('', () => { throw new Error('boom') })()]: a custom
    validator registered under the empty name. *)
Definition nameless : Validator :=
  createValidator EmptyString
    (fun _ (_ : unit) => throw (ThrownError (new_Error "boom"))) tt.

(** [function isPositive (v) { return v > 0 }] of the test-suite, on
    numbers (every other value of the samples compares false). *)
Definition isPositive : Fn.t :=
  Fn.mk "isPositive"
    (fun v => ret (VBool (match v with VNum n => Z.ltb 0 n | _ => false end))).


(** The nested shape as a schema. *)
Definition user_tree : Schema :=
  Object [("user",
           Object [("name", Leaf (string None)); ("age", Leaf (number None))]
             None)]
    None.

(** The root context of the test-suite for the value [1]. *)
Definition ctx1 : Ctx.t := makeCtx None KNull (VNum 1).

End Sample.

(* ================================================================== *)
(** ** Definitions used to state the further properties *)
(* ================================================================== *)

(** The type names of the five primitive guards. *)
Definition guard_types : list str :=
  ["string"; "number"; "bigint"; "boolean"; "symbol"].

(** The validators made of the library's own pieces that check and
    rebuild a value without transforming it: the primitive guards,
    [required], and [object] and [array] over such validators. *)
Inductive Structural : Validator -> Prop :=
| structural_guard type msg :
    In type guard_types -> Structural (primitive type msg)
| structural_required msg : Structural (required msg)
| structural_object shape msg :
    NoDup (map fst shape) ->
    (forall key v, In (key, v) shape -> Structural v) ->
    Structural (object shape msg)
| structural_array v msg : Structural v -> Structural (array v msg).

(** The structural validators whose shapes do not declare the key
    [__proto__], which [object] cannot give to the object it assembles. *)
Inductive Rebuilding : Validator -> Prop :=
| rebuilding_guard type msg :
    In type guard_types -> Rebuilding (primitive type msg)
| rebuilding_required msg : Rebuilding (required msg)
| rebuilding_object shape msg :
    NoDup (map fst shape) ->
    ~ In "__proto__" (map fst shape) ->
    (forall key v, In (key, v) shape -> Rebuilding v) ->
    Rebuilding (object shape msg)
| rebuilding_array v msg : Rebuilding v -> Rebuilding (array v msg).

(** A validator that never leaves the abort flag set on a context that it
    was handed with the flag unset. *)
Definition keeps_flag_unset (v : Validator) : Prop :=
  forall value ctx,
    truthy_flag (Ctx.__abortPipe ctx) = false ->
    truthy_flag (Ctx.__abortPipe (snd (v value ctx))) = false.


(** The primitive values: every value but the functions and the objects
    (arrays among them). *)
Definition is_primitive (value : Value) : bool :=
  match value with
  | VFunc _ _ | VArr _ | VObj _ | VObjectPrototype => false
  | _ => true
  end.


(** The outputs of [array], position by position: the output at index
    [i + j] is what the item validator returns on the [j]-th item with the
    child context of that index. *)
Inductive item_outputs (ctx : Ctx.t) (validator : Validator)
  : Z -> list Value -> list Value -> Prop :=
| item_outputs_nil i : item_outputs ctx validator i [] []
| item_outputs_cons i item items out outs :
    item_call ctx validator i item = Normal out ->
    item_outputs ctx validator (i + 1) items outs ->
    item_outputs ctx validator i (item :: items) (out :: outs).

(** The first item of a list, from index [i] on, that is not of the given
    type, with its index. *)
Fixpoint first_mismatch (type : str) (i : Z) (items : list Value)
  : option (Z * Value) :=
  match items with
  | [] => None
  | item :: rest =>
      if String.eqb (typeof item) type then first_mismatch type (i + 1) rest
      else Some (i, item)
  end.

(** A string starts with another. *)
Definition starts_with (prefix s : str) : Prop :=
  exists suffix, s = prefix ++ suffix.

(** The message of [new Error(msg || template)] for a failure named
    [name] on [value] at [path]: the caller's message when it is not
    empty; otherwise the default message around the rendering of the
    value, or, when the value has no rendering, what the formatter threw
    instead (the TypeError on a bigint, whose message is then the one that
    is seen). *)
Definition failure_message (msg : option str) (value : Value) (name : str)
  (path : str) : str :=
  let default :=
    match formatValue value with
    | Normal text => "(" ++ path ++ ": " ++ text ++ ") ✖ " ++ name
    | Throw t =>
        match t with
        | ThrownError e => ValidationError.message e
        | ThrownValue _ => EmptyString
        end
    end in
  match msg with
  | Some m => if truthy_str m then m else default
  | None => default
  end.

(** The error that a library validator named [name] throws for its own
    failure on [value] at [ctx]. *)
Definition own_failure (msg : option str) (value : Value) (name : str)
  (ctx : Ctx.t) : Thrown :=
  ThrownError
    (ValidationError.mk (failure_message msg value name (Ctx.path ctx))
       (Some name) (Some value)
       (Some (Ctx.path ctx)) (Some (Ctx.key ctx))
       (Some (Ctx.parent ctx)) (Some (Ctx.root ctx))).

(** A function [v => f(v)] that neither throws nor looks at the context,
    and a predicate of that kind. *)
Definition pure_fn (name : str) (f : Value -> Value) : Fn.t :=
  Fn.mk name (fun v => ret (f v)).

Definition predicate (name : str) (p : Value -> bool) : Fn.t :=
  Fn.mk name (fun v => ret (VBool (p v))).

(* ================================================================== *)
(** ** Properties *)
(* ================================================================== *)

(** Unfolding of the operations of [M]. *)
Ltac run :=
  unfold createValidator, try_catch, throw_new_Error, default_message,
    msg_or, bind, ret, throw, this_ctx, modify_ctx, lift, call_with in *;
  cbn [fst snd] in *.

Lemma append_nil_r (s : str) : s ++ EmptyString = s.
Proof. induction s as [|c s IH]; cbn; [reflexivity | now rewrite IH]. Qed.

Lemma append_assoc (a b c : str) : (a ++ b) ++ c = a ++ (b ++ c).
Proof. induction a as [|x a IH]; cbn; [reflexivity | now rewrite IH]. Qed.

Lemma concat_empty_cons (x : str) (xs : list str) :
  String.concat EmptyString (x :: xs) = x ++ String.concat EmptyString xs.
Proof.
  destruct xs as [|y ys]; cbn [String.concat].
  - now rewrite append_nil_r.
  - reflexivity.
Qed.

(** *** The context model *)

(** One descent appends the rendering of its key to the parent's path. *)
Lemma makeCtx_path_step (parent : Ctx.t) (k : Step) (v : Value) :
  Ctx.path (makeCtx (Some parent) (key_of k) v) = Ctx.path parent ++ render k.
Proof. destruct k; reflexivity. Qed.

Lemma descend_path (chain : list (Step * Value)) :
  forall ctx,
    Ctx.path (descend ctx chain)
    = Ctx.path ctx ++ String.concat EmptyString (map render (map fst chain)).
Proof.
  induction chain as [|[k v] rest IH]; intros ctx.
  - cbn. now rewrite append_nil_r.
  - cbn [descend map fst]. rewrite IH, makeCtx_path_step.
    now rewrite concat_empty_cons, append_assoc.
Qed.

(** C4 (path determinism).  Whatever the root key and value and whatever
    the values met on the way, the context reached from the root context
    [makeCtx(null, k0, v0)] by descending along a chain of keys has the path
    made of the root marker [$] followed, key by key and in order, by
    [[k]] for an integer key and [.k] for a name: the right-hand side does
    not mention any value. *)
Theorem C4_path_determinism :
  forall (k0 : Key) (v0 : Value) (chain : list (Step * Value)),
    Ctx.path (descend (makeCtx None k0 v0) chain)
    = path_of_keys (map fst chain).
Proof.
  intros k0 v0 chain. rewrite descend_path. reflexivity.
Qed.

(** The paths of the test-suite: [$.user] and [$.list[0]]. *)
Example makeCtx_paths_of_the_tests :
  Ctx.path (descend (makeCtx None KNull (VObj [("user", VObj [])]))
              [(Name "user", VObj [])]) = "$.user"
  /\ Ctx.path (descend (makeCtx None KNull (VObj [("list", VArr [])]))
                 [(Name "list", VArr []); (Index 0, VStr "foo")])
     = "$.list[0]".
Proof. split; reflexivity. Qed.

(** *** The validator core *)

(** What a validator built by [createValidator] does, by the completion
    of its handler. *)
Lemma createValidator_run {Args : Type} (name : str)
  (handler : Value -> Args -> M Value) (args : Args)
  (value : Value) (ctx : Ctx.t) :
  createValidator name handler args value ctx
  = match handler value args ctx with
    | (Normal r, ctx') => (Normal r, ctx')
    | (Throw err, ctx') => (Throw (rethrown name value ctx' err), ctx')
    end.
Proof.
  run. unfold rethrown.
  destruct (handler value args ctx) as [[r|err] ctx']; [reflexivity|].
  destruct (as_Error err); reflexivity.
Qed.

(** The conversions on a few values: a symbol is described by [String]
    but has no string inside an array; a bigint has no JSON text. *)
Example conversions_of_the_runtime :
  String_ (VSymbol "x") = Normal "Symbol(x)"
  /\ String_ (VArr [VNum 1; VNull; VArr [VNum 2; VNum 3]]) = Normal "1,,2,3"
  /\ String_ (VArr [VSymbol "x"]) = Throw Symbol_TypeError
  /\ JSON_stringify (VArr [VNum 1; VUndefined; VBigInt 2]) = JSONBigInt
  /\ JSON_stringify
       (VObj [("a", VUndefined); ("b", VArr [VFunc "f" "() => 1"; VBool true])])
     = JSONText ("{" ++ dquote ++ "b" ++ dquote ++ ":[null,true]}")
  /\ fst (createValidator "custom"
            (fun _ (_ : unit) => throw (ThrownValue (VArr [VSymbol "x"]))) tt
            VNull (makeCtx None KNull VNull))
     = Throw Symbol_TypeError.
Proof. repeat split. Qed.

(** The test-suite's checks of [formatValue] and of [createValidator]
    (a thrown non-error is wrapped and stamped; an [expected] that is set
    already is kept). *)
Example formatValue_of_the_tests :
  formatValue VNull = Normal "null"
  /\ formatValue VUndefined = Normal "undefined"
  /\ formatValue (VStr "foo") = Normal "foo"
  /\ formatValue (VNum 123) = Normal "123"
  /\ formatValue (VBool true) = Normal "true"
  /\ formatValue (VBigInt 10) = Normal "10"
  /\ formatValue (VFunc "foo" "function foo () {}") = Normal "[Function: foo]"
  /\ formatValue (VFunc EmptyString "() => {}") = Normal "[Function]"
  /\ formatValue (VObj [("a", VNum 1)])
     = Normal ("{" ++ dquote ++ "a" ++ dquote ++ ":1}")
  /\ formatValue (VArr [VNum 1; VNum 2]) = Normal "[1,2]".
Proof. repeat split. Qed.

Example createValidator_of_the_tests :
  createValidator "testValidator"
    (fun _ (_ : unit) => throw (ThrownValue (VStr "boom"))) tt
    (VNum 42) (makeCtx None (KStr "x") (VNum 42))
  = (Throw (ThrownError
              (ValidationError.mk "boom" (Some "testValidator")
                 (Some (VNum 42)) (Some "$") (Some (KStr "x"))
                 (Some VNull) (Some (VNum 42)))),
     makeCtx None (KStr "x") (VNum 42))
  /\ createValidator "outer"
       (fun _ (_ : unit) =>
          throw (ThrownError
                   (ValidationError.mk "inner" (Some "inner")
                      None None None None None))) tt
       (VStr "x") (makeCtx None KNull (VStr "x"))
     = (Throw (ThrownError
                 (ValidationError.mk "inner" (Some "inner")
                    None None None None None)),
        makeCtx None KNull (VStr "x")).
Proof. split; reflexivity. Qed.

(** *** pipe *)

Lemma pipe_run (validators : list Validator) (value : Value) (ctx : Ctx.t) :
  pipe validators value ctx
  = match pipe_loop validators value ctx with
    | (Normal r, ctx') => (Normal r, Ctx.delete_abortPipe ctx')
    | (Throw err, ctx') => (Throw (rethrown "pipe" value ctx' err), ctx')
    end.
Proof.
  unfold pipe. rewrite createValidator_run. run.
  destruct (pipe_loop validators value ctx) as [[r|err] ctx']; reflexivity.
Qed.

(** C10 (no validators).  [pipe()] applied to any value and context
    returns the value as it is and leaves the context with the abort flag
    deleted; it does not throw. *)
Theorem C10_pipe_of_nothing_is_identity :
  forall (value : Value) (ctx : Ctx.t),
    pipe [] value ctx = (Normal value, Ctx.delete_abortPipe ctx)
    /\ Ctx.__abortPipe (snd (pipe [] value ctx)) = None.
Proof.
  intros value ctx. rewrite pipe_run. cbn. split; reflexivity.
Qed.

(** Plain chaining of the first steps of a list that starts with a step
    which returns. *)
Lemma reduce_firstn_S (v : Validator) (rest : list Validator) (j : nat)
  (value : Value) (ctx : Ctx.t) (value1 : Value) (ctx1 : Ctx.t) :
  v value ctx = (Normal value1, ctx1) ->
  IndexJs.reduce (firstn (S j) (v :: rest)) value ctx
  = IndexJs.reduce (firstn j rest) value1 ctx1.
Proof. intros Hv. cbn. unfold bind. now rewrite Hv. Qed.

(** The loop of [pipe] runs a prefix of the steps, chained: every step it
    runs starts with the flag unset, and it stops before the first step
    that would start with the flag set, or at a step that throws. *)
Lemma pipe_loop_prefix (validators : list Validator) :
  forall (value : Value) (ctx : Ctx.t),
  exists k : nat,
    k <= length validators
    /\ (forall j, j < k ->
          exists vj cj,
            IndexJs.reduce (firstn j validators) value ctx = (Normal vj, cj)
            /\ truthy_flag (Ctx.__abortPipe cj) = false)
    /\ pipe_loop validators value ctx
       = IndexJs.reduce (firstn k validators) value ctx
    /\ match IndexJs.reduce (firstn k validators) value ctx with
       | (Normal _, ck) =>
           k = length validators \/ truthy_flag (Ctx.__abortPipe ck) = true
       | (Throw _, _) => True
       end.
Proof.
  induction validators as [|v rest IH]; intros value ctx.
  - exists 0. cbn. repeat split; auto. intros j Hj. lia.
  - destruct (truthy_flag (Ctx.__abortPipe ctx)) eqn:Hflag.
    + exists 0. cbn [firstn IndexJs.reduce pipe_loop length]. run.
      rewrite Hflag. repeat split; auto; lia.
    + destruct (v value ctx) as [[value1|t] ctx1] eqn:Hv.
      * destruct (IH value1 ctx1) as (k & Hk & Hbefore & Hloop & Hstop).
        exists (S k). rewrite (reduce_firstn_S _ _ _ _ _ _ _ Hv).
        repeat split.
        -- cbn. lia.
        -- intros [|j] Hj.
           ++ exists value, ctx. split; [reflexivity | exact Hflag].
           ++ rewrite (reduce_firstn_S _ _ _ _ _ _ _ Hv).
              apply Hbefore. lia.
        -- cbn [pipe_loop]. run. rewrite Hflag, Hv. exact Hloop.
        -- destruct (IndexJs.reduce (firstn k rest) value1 ctx1) as [[r|t] c];
             [|exact I].
           destruct Hstop as [->|Hset]; [left; reflexivity | right; exact Hset].
      * exists 1. cbn [firstn IndexJs.reduce pipe_loop length]. run.
        rewrite Hflag, Hv. repeat split; auto; try lia.
        intros [|j] Hj; [|lia].
        exists value, ctx. split; [reflexivity | exact Hflag].
Qed.

(** C5 (order, chaining and short-circuit).  For every list of validators
    (the non-empty ones among them), value and context, [pipe] runs some
    number [k] of the leading steps, in the declared order and each on the
    output of the step before (plain chaining of the first [k] steps);
    every step that is run starts with the abort flag unset; if the [k]
    steps return, then either all steps were run or the flag is set before
    step [k+1], the remaining steps are skipped and the value produced so
    far is returned as it is; if step [k] throws, its failure leaves the
    pipe through the wrapper of [createValidator]. *)
Theorem C5_pipe_order_and_short_circuit :
  forall (validators : list Validator) (value : Value) (ctx : Ctx.t),
  exists k : nat,
    k <= length validators
    /\ (forall j, j < k ->
          exists vj cj,
            IndexJs.reduce (firstn j validators) value ctx = (Normal vj, cj)
            /\ truthy_flag (Ctx.__abortPipe cj) = false)
    /\ match IndexJs.reduce (firstn k validators) value ctx with
       | (Normal vk, ck) =>
           (k = length validators \/ truthy_flag (Ctx.__abortPipe ck) = true)
           /\ pipe validators value ctx = (Normal vk, Ctx.delete_abortPipe ck)
       | (Throw err, ck) =>
           pipe validators value ctx = (Throw (rethrown "pipe" value ck err), ck)
       end.
Proof.
  intros validators value ctx.
  destruct (pipe_loop_prefix validators value ctx)
    as (k & Hk & Hbefore & Hloop & Hstop).
  exists k. split; [exact Hk|]. split; [exact Hbefore|].
  rewrite pipe_run, Hloop.
  destruct (IndexJs.reduce (firstn k validators) value ctx) as [[vk|err] ck].
  - split; [exact Hstop | reflexivity].
  - reflexivity.
Qed.

(** C1 as stated fails on a step that sets the flag and then throws:
    [pipe] has no [finally], so the [delete] is skipped and the flag stays
    on the context; a pipeline run next on the same context object skips
    all its steps, here a [string()] guard that the number 1 would fail. *)
Lemma C1_flag_survives_a_failing_step :
  (exists e, fst (pipe [Sample.abort_then_fail] (VNum 1) Sample.ctx1) = Throw e)
  /\ Ctx.__abortPipe (snd (pipe [Sample.abort_then_fail] (VNum 1) Sample.ctx1))
     = Some true
  /\ fst (pipe [string None] (VNum 1)
            (snd (pipe [Sample.abort_then_fail] (VNum 1) Sample.ctx1)))
     = Normal (VNum 1)
  /\ (exists e, fst (pipe [string None] (VNum 1) Sample.ctx1) = Throw e).
Proof.
  repeat split; try reflexivity; eexists; reflexivity.
Qed.

(** C1, amended.  Whenever a pipe returns a value to its caller, be it
    after all its steps or after a short-circuit, the abort flag is absent
    from the context; hence a pipeline that goes on with the same context
    object (a sibling, or the enclosing pipe taking its next step) does not
    see a flag set by this pipe: its next step is run. *)
Theorem C1_pipe_return_clears_abort :
  forall (validators : list Validator) (value : Value) (ctx : Ctx.t)
         (r : Value) (ctx' : Ctx.t),
    pipe validators value ctx = (Normal r, ctx') ->
    Ctx.__abortPipe ctx' = None
    /\ forall (next : Validator) (rest : list Validator) (v : Value),
         pipe_loop (next :: rest) v ctx'
         = (v' <- next v ;; pipe_loop rest v') ctx'.
Proof.
  intros validators value ctx r ctx' Hpipe.
  rewrite pipe_run in Hpipe.
  destruct (pipe_loop validators value ctx) as [[r0|err] c]; [|discriminate].
  injection Hpipe as -> <-.
  split; [reflexivity|].
  intros next rest v. reflexivity.
Qed.

Lemma C1_pipe_return_clears_abort_witness :
  Sample.optional_string VNull Sample.ctx1 = (Normal VNull, Sample.ctx1)
  /\ Ctx.__abortPipe (snd (Sample.optional_string VNull Sample.ctx1)) = None.
Proof.
  split; [reflexivity|].
  exact (proj1 (C1_pipe_return_clears_abort
                  [optional tt; string None] VNull Sample.ctx1
                  VNull _ eq_refl)).
Defined.

(** A flag set and cleared within an inner pipe is not seen by the outer
    one: after [pipe(optional(), string())] has short-circuited on null,
    the outer pipe still runs its [required()] step. *)
Example nested_pipe_runs_next_step :
  exists e,
    validate (pipe [Sample.optional_string; required None]) VNull None
    = Invalid (ThrownError e) VNull
    /\ ValidationError.expected e = Some "required".
Proof. eexists. split; reflexivity. Qed.

(** *** optional *)

(** C6.  On null and on undefined [optional()] sets the abort flag of the
    context and returns the value; on every other value it returns the
    value and leaves the context as it is.  Hence
    [pipe(optional(), string())] validates null to [{valid: true, result:
    null}] and ["ok"] to [{valid: true, result: "ok"}]. *)
Theorem C6_optional :
  (forall (value : Value) (ctx : Ctx.t),
     optional tt value ctx
     = (Normal value,
        match value with
        | VNull | VUndefined => Ctx.set_abortPipe true ctx
        | _ => ctx
        end))
  /\ validate Sample.optional_string VNull None = Valid VNull
  /\ validate Sample.optional_string (VStr "ok") None = Valid (VStr "ok").
Proof.
  split; [|split; reflexivity].
  intros value ctx. destruct value; reflexivity.
Qed.

(** *** validate *)

(** C8.  [validate] runs the schema on the value at a root context; when
    the schema returns [r] the outcome is [{valid: true, result: r}], and
    when it throws [e] the outcome is [{valid: false, error: e, result:
    value}] with the value that was passed in, whatever intermediate values
    the schema went through. *)
Theorem C8_validate_outcome :
  forall (schema : Validator) (value : Value) (rootPath : option str),
    let ctx :=
      Ctx.mk (match rootPath with Some p => p | None => "$" end)
        KNull VNull value value None in
    (exists r, fst (schema value ctx) = Normal r
               /\ validate schema value rootPath = Valid r)
    \/ (exists e, fst (schema value ctx) = Throw e
                  /\ validate schema value rootPath = Invalid e value).
Proof.
  intros schema value rootPath ctx. unfold validate. fold ctx.
  destruct (schema value ctx) as [[r|e] c]; cbn [fst].
  - left. exists r. split; reflexivity.
  - right. exists e. split; reflexivity.
Qed.

(** The original input comes back even when a step had already replaced
    it: [pipe(transform(() => 2), string())] fails on the intermediate
    value 2, and the result of [validate] on 1 is 1. *)
Example validate_keeps_the_input :
  exists e,
    validate (pipe [transform (Fn.mk EmptyString (fun _ => ret (VNum 2)));
                    string None]) (VNum 1) None
    = Invalid (ThrownError e) (VNum 1)
    /\ ValidationError.actual e = Some (VNum 2).
Proof. eexists. split; reflexivity. Qed.

(** *** Structural validators: the two failures of the specification *)

(** C3 (fail-fast with the innermost location).  The nested shape on
    [{ user: { name: "nana", age: "bad" } }] fails with the error of the
    [number] guard at [$.user.age], and the array of numbers on
    [[1, "x", 3]] fails with the error of the [number] guard at [$[1]];
    both outcomes are [{valid: false}] with the input as result, and no
    assembled object or array.  The failure is the first one met: it is the
    same whatever members are declared after [age] and whatever items
    follow ["x"], which are not looked at. *)
Theorem C3_fail_fast_paths :
  validate Sample.user_schema Sample.bad_user None
  = Invalid
      (ThrownError
         (ValidationError.mk "($.user.age: bad) ✖ number"
            (Some "number") (Some (VStr "bad"))
            (Some "$.user.age") (Some (KStr "age"))
            (Some (VObj [("name", VStr "nana"); ("age", VStr "bad")]))
            (Some Sample.bad_user)))
      Sample.bad_user
  /\ validate (array (number None) None) (VArr [VNum 1; VStr "x"; VNum 3]) None
     = Invalid
         (ThrownError
            (ValidationError.mk "($[1]: x) ✖ number"
               (Some "number") (Some (VStr "x"))
               (Some "$[1]") (Some (KNum 1))
               (Some (VArr [VNum 1; VStr "x"; VNum 3]))
               (Some (VArr [VNum 1; VStr "x"; VNum 3]))))
         (VArr [VNum 1; VStr "x"; VNum 3])
  /\ (forall (more : Shape) (others : Shape),
        exists e,
          validate
            (object (("user", object (Sample.user_shape ++ more)%list None)
                     :: others) None)
            Sample.bad_user None
          = Invalid (ThrownError e) Sample.bad_user
          /\ ValidationError.path e = Some "$.user.age"
          /\ ValidationError.expected e = Some "number")
  /\ (forall (rest : list Value),
        exists e,
          validate (array (number None) None)
            (VArr (VNum 1 :: VStr "x" :: rest)) None
          = Invalid (ThrownError e) (VArr (VNum 1 :: VStr "x" :: rest))
          /\ ValidationError.path e = Some "$[1]"
          /\ ValidationError.expected e = Some "number").
Proof.
  split; [reflexivity|]. split; [reflexivity|]. split.
  - intros more others. eexists. split; [reflexivity|]. split; reflexivity.
  - intros rest. eexists. split; [reflexivity|]. split; reflexivity.
Qed.

(** *** Single stamp *)

Lemma rethrown_stamped (name : str) (value : Value) (ctx : Ctx.t)
  (e : ValidationError.t) :
  stamped e -> rethrown name value ctx (ThrownError e) = ThrownError e.
Proof. unfold stamped, rethrown, enrich. cbn. intros ->. reflexivity. Qed.

Lemma enrich_unstamped (name : str) (value : Value) (ctx : Ctx.t)
  (error : ValidationError.t) :
  ~ stamped error -> enrich name value ctx error = stamp name value ctx error.
Proof.
  unfold stamped, enrich. intros H.
  destruct (truthy_opt (ValidationError.expected error));
    [now elim H | reflexivity].
Qed.

Lemma enrich_is_stamped (name : str) (value : Value) (ctx : Ctx.t)
  (error : ValidationError.t) :
  truthy_str name = true -> stamped (enrich name value ctx error).
Proof.
  intros Hname. unfold enrich, stamped.
  destruct (truthy_opt (ValidationError.expected error)) eqn:He;
    cbn [negb]; [exact He | exact Hname].
Qed.

(** The formatter fails with an [Error] only, and so does
    [throw new Error(msg || template)]. *)
Lemma formatValue_throw (value : Value) (t : Thrown) :
  formatValue value = Throw t -> exists e, t = ThrownError e.
Proof.
  destruct value; try (cbn; discriminate);
    unfold formatValue; destruct (JSON_stringify _); try discriminate;
    intros [= <-]; eexists; reflexivity.
Qed.

Lemma throw_new_Error_run {A : Type} (msg : option str) (value : Value)
  (name : str) (ctx : Ctx.t) :
  exists e,
    @throw_new_Error A msg (default_message value name) ctx
    = (Throw (ThrownError e), ctx).
Proof.
  unfold throw_new_Error, msg_or, default_message, bind, lift, ret, throw,
    this_ctx.
  destruct msg as [m|]; [destruct (truthy_str m)|];
    try (eexists; reflexivity);
    destruct (formatValue value) as [text|t] eqn:Hf;
    try (eexists; reflexivity);
    destruct (formatValue_throw _ _ Hf) as [e ->]; eexists; reflexivity.
Qed.

(** A failure of the loop of [pipe] is the failure of one of its steps,
    untouched: the steps before it returned, chained, and left the flag
    unset. *)
Lemma pipe_loop_throw (validators : list Validator) :
  forall value ctx t ctx',
    pipe_loop validators value ctx = (Throw t, ctx') ->
    exists k step input c,
      nth_error validators k = Some step
      /\ pipe_loop (firstn k validators) value ctx = (Normal input, c)
      /\ truthy_flag (Ctx.__abortPipe c) = false
      /\ step input c = (Throw t, ctx').
Proof.
  induction validators as [|v rest IH]; intros value ctx t ctx' H.
  - discriminate.
  - cbn [pipe_loop] in H. run.
    destruct (truthy_flag (Ctx.__abortPipe ctx)) eqn:Hflag; [discriminate|].
    destruct (v value ctx) as [[value1|t1] ctx1] eqn:Hv.
    + destruct (IH _ _ _ _ H) as (k & step & input & c & Hnth & Hpre & Hc & Hstep).
      exists (S k), step, input, c. split; [exact Hnth|].
      split; [|split; [exact Hc | exact Hstep]].
      cbn [firstn pipe_loop]. run. now rewrite Hflag, Hv.
    + injection H as <- <-. exists 0, v, value, ctx.
      repeat split; [exact Hflag | exact Hv].
Qed.

(** The loop of [object] leaves the context of the call alone; a failure
    of the loop is the failure of one of the member calls, untouched, and
    the member calls before it returned. *)
Lemma object_loop_ctx (shape : Shape) (value : Value) :
  forall result ctx, snd (object_loop shape value result ctx) = ctx.
Proof.
  induction shape as [|[key validator] rest IH]; intros result ctx.
  - reflexivity.
  - cbn [object_loop]. run.
    destruct (validator _ _) as [[out|t] c]; cbn [fst]; [apply IH | reflexivity].
Qed.

Lemma object_loop_throw (shape : Shape) (value : Value) :
  forall result ctx t ctx',
    object_loop shape value result ctx = (Throw t, ctx') ->
    exists i key validator,
      nth_error shape i = Some (key, validator)
      /\ (forall j kj vj,
            j < i -> nth_error shape j = Some (kj, vj) ->
            exists out, member_call ctx value kj vj = Normal out)
      /\ member_call ctx value key validator = Throw t.
Proof.
  induction shape as [|[key validator] rest IH]; intros result ctx t ctx' H.
  - discriminate.
  - cbn [object_loop] in H. run.
    destruct (validator (Get value key)
                (makeCtx (Some ctx) (KStr key) (Get value key)))
      as [[out|t1] c] eqn:Hv; cbn [fst] in H.
    + destruct (IH _ _ _ _ H) as (i & k & v & Hnth & Hbefore & Hcall).
      exists (S i), k, v. split; [exact Hnth|]. split; [|exact Hcall].
      intros [|j] kj vj Hj Hnthj.
      * injection Hnthj as <- <-. exists out. unfold member_call.
        now rewrite Hv.
      * apply (Hbefore j); [lia | exact Hnthj].
    + injection H as <- <-. exists 0, key, validator.
      split; [reflexivity|]. split; [intros j kj vj Hj; lia|].
      unfold member_call. now rewrite Hv.
Qed.

(** The same for the [map] of [array]. *)
Lemma array_map_ctx (validator : Validator) (items : list Value) :
  forall i ctx, snd (array_map validator items i ctx) = ctx.
Proof.
  induction items as [|item rest IH]; intros i ctx.
  - reflexivity.
  - cbn [array_map]. run.
    destruct (validator _ _) as [[out|t] c]; cbn [fst]; [|reflexivity].
    specialize (IH (i + 1)%Z ctx).
    destruct (array_map validator rest (i + 1) ctx) as [[outs|t] c'];
      exact IH.
Qed.

Lemma array_map_throw (validator : Validator) (items : list Value) :
  forall i ctx t ctx',
    array_map validator items i ctx = (Throw t, ctx') ->
    exists (j : nat) (item : Value),
      nth_error items j = Some item
      /\ (forall j' y,
            j' < j -> nth_error items j' = Some y ->
            exists out,
              item_call ctx validator (i + Z.of_nat j') y = Normal out)
      /\ item_call ctx validator (i + Z.of_nat j) item = Throw t.
Proof.
  induction items as [|item rest IH]; intros i ctx t ctx' H.
  - discriminate.
  - cbn [array_map] in H. run.
    destruct (validator item (makeCtx (Some ctx) (KNum i) item))
      as [[out|t1] c] eqn:Hv; cbn [fst] in H.
    + destruct (array_map validator rest (i + 1) ctx) as [[outs|t2] c2] eqn:Hrest;
        [discriminate|].
      injection H as <- <-.
      destruct (IH _ _ _ _ Hrest) as (j & it & Hnth & Hbefore & Hcall).
      exists (S j), it. split; [exact Hnth|]. split.
      * intros [|j'] y Hj Hnthj.
        -- injection Hnthj as <-. exists out. unfold item_call.
           replace (i + Z.of_nat 0)%Z with i by lia. now rewrite Hv.
        -- replace (i + Z.of_nat (S j'))%Z with (i + 1 + Z.of_nat j')%Z by lia.
           apply Hbefore; [lia | exact Hnthj].
      * replace (i + Z.of_nat (S j))%Z with (i + 1 + Z.of_nat j)%Z by lia.
        exact Hcall.
    + injection H as <- <-. exists 0, item. split; [reflexivity|].
      split; [intros j' y Hj; lia|].
      unfold item_call. replace (i + Z.of_nat 0)%Z with i by lia.
      now rewrite Hv.
Qed.

(** C2 as stated fails on an error whose kind name is the empty string:
    the wrapper's test [!error.expected] takes it for absent.  A custom
    validator registered under the name [''] stamps its failure on the
    member [a] with [expected = ''] at [$.a]; the enclosing [object] stamps
    the same error again, with its own name, its own input and the path
    [$]. *)
Lemma C2_empty_kind_name_is_overwritten :
  (exists e,
     member_call (makeCtx None KNull (VObj [("a", VNum 1)]))
       (VObj [("a", VNum 1)]) "a" Sample.nameless
     = Throw (ThrownError e)
     /\ ValidationError.expected e = Some EmptyString
     /\ ValidationError.actual e = Some (VNum 1)
     /\ ValidationError.path e = Some "$.a")
  /\ (exists e,
        validate (object [("a", Sample.nameless)] None)
          (VObj [("a", VNum 1)]) None
        = Invalid (ThrownError e) (VObj [("a", VNum 1)])
        /\ ValidationError.expected e = Some "object"
        /\ ValidationError.actual e = Some (VObj [("a", VNum 1)])
        /\ ValidationError.path e = Some "$").
Proof.
  split; eexists; repeat split; reflexivity.
Qed.

(** One level: a failure of [pipe], [object] or [array] that comes from a
    call of a step, member or item (the first one that fails) is that
    call's failure itself when it is stamped. *)
Lemma pipe_keeps_stamp (validators : list Validator) (value : Value)
  (ctx : Ctx.t) (t : Thrown) (ctx' : Ctx.t) :
  pipe validators value ctx = (Throw t, ctx') ->
  exists k step input c t0,
    nth_error validators k = Some step
    /\ pipe_loop (firstn k validators) value ctx = (Normal input, c)
    /\ truthy_flag (Ctx.__abortPipe c) = false
    /\ step input c = (Throw t0, ctx')
    /\ forall e, t0 = ThrownError e -> stamped e -> t = ThrownError e.
Proof.
  intros H. rewrite pipe_run in H.
  destruct (pipe_loop validators value ctx) as [[r|t0] c] eqn:Hloop;
    [discriminate|].
  injection H as <- <-.
  destruct (pipe_loop_throw _ _ _ _ _ Hloop)
    as (k & step & input & c0 & Hnth & Hpre & Hc & Hstep).
  exists k, step, input, c0, t0. repeat (split; [assumption|]).
  intros e -> Hs. now rewrite rethrown_stamped.
Qed.

Lemma object_keeps_stamp (shape : Shape) (msg : option str) (value : Value)
  (ctx : Ctx.t) (t : Thrown) (ctx' : Ctx.t) :
  object shape msg value ctx = (Throw t, ctx') ->
  fails_object_check value = true
  \/ fails_object_check value = false
     /\ exists i key validator t0,
          nth_error shape i = Some (key, validator)
          /\ (forall j kj vj,
                j < i -> nth_error shape j = Some (kj, vj) ->
                exists out, member_call ctx value kj vj = Normal out)
          /\ member_call ctx value key validator = Throw t0
          /\ forall e, t0 = ThrownError e -> stamped e -> t = ThrownError e.
Proof.
  intros H. unfold object in H. rewrite createValidator_run in H.
  fold (fails_object_check value) in H.
  destruct (fails_object_check value); [now left|].
  right. split; [reflexivity|]. run.
  destruct (object_loop shape value [] ctx) as [[r|t0] c] eqn:Hloop;
    [discriminate|].
  injection H as <- <-.
  destruct (object_loop_throw _ _ _ _ _ _ Hloop)
    as (i & key & v & Hnth & Hbefore & Hcall).
  exists i, key, v, t0. repeat (split; [assumption|]).
  intros e -> Hs. now rewrite rethrown_stamped.
Qed.

Lemma array_keeps_stamp (validator : Validator) (msg : option str)
  (value : Value) (ctx : Ctx.t) (t : Thrown) (ctx' : Ctx.t) :
  array validator msg value ctx = (Throw t, ctx') ->
  isArray value = false
  \/ exists (items : list Value) (j : nat) (item : Value) (t0 : Thrown),
       value = VArr items
       /\ nth_error items j = Some item
       /\ (forall j' y,
             j' < j -> nth_error items j' = Some y ->
             exists out,
               item_call ctx validator (Z.of_nat j') y = Normal out)
       /\ item_call ctx validator (Z.of_nat j) item = Throw t0
       /\ forall e, t0 = ThrownError e -> stamped e -> t = ThrownError e.
Proof.
  intros H. unfold array in H. rewrite createValidator_run in H.
  destruct value as [| | | | | | | |items| |]; try (now left).
  right. cbn in H. run.
  destruct (array_map validator items 0 ctx) as [[r|t0] c] eqn:Hmap;
    [discriminate|].
  injection H as <- <-.
  destruct (array_map_throw _ _ _ _ _ _ Hmap)
    as (j & item & Hnth & Hbefore & Hcall).
  exists items, j, item, t0. split; [reflexivity|].
  repeat (split; [assumption|]).
  intros e -> Hs. now rewrite rethrown_stamped.
Qed.

Lemma depth_step (steps : list Schema) (s : Schema) :
  In s steps -> depth s < depth (Pipe steps).
Proof.
  intros Hin. cbn [depth].
  pose proof (proj1 (list_max_le (map depth steps) _) (le_n _)) as Hall.
  rewrite Forall_forall in Hall.
  specialize (Hall (depth s) (in_map depth _ _ Hin)). lia.
Qed.

Lemma depth_member (members : list (str * Schema)) (msg : option str)
  (key : str) (s : Schema) :
  In (key, s) members -> depth s < depth (Object members msg).
Proof.
  intros Hin. cbn [depth].
  set (f := fun m : str * Schema => match m with (_, s') => depth s' end).
  pose proof (proj1 (list_max_le (map f members) _) (le_n _)) as Hall.
  rewrite Forall_forall in Hall.
  specialize (Hall (f (key, s)) (in_map f _ _ Hin)). cbn in Hall. lia.
Qed.

(** The member of a built shape at a position is the member of the schema
    at that position, built. *)
Lemma nth_error_built (members : list (str * Schema)) (i : nat)
  (key : str) (validator : Validator) :
  nth_error
    (map (fun m : str * Schema => match m with (k, s') => (k, build s') end)
       members) i
  = Some (key, validator) ->
  exists s, nth_error members i = Some (key, s) /\ validator = build s.
Proof.
  rewrite nth_error_map.
  destruct (nth_error members i) as [[k s]|]; cbn; [|discriminate].
  intros [= <- <-]. exists s. split; reflexivity.
Qed.

(** Any depth: the failure that leaves a schema is the one raised at the
    innermost failing call, unchanged when that one is stamped. *)
Lemma failure_is_raised_inside (n : nat) :
  forall s : Schema,
    depth s <= n ->
    forall value ctx t ctx',
      build s value ctx = (Throw t, ctx') ->
      exists t0,
        raised_in s value ctx t0
        /\ forall e, t0 = ThrownError e -> stamped e -> t = ThrownError e.
Proof.
  induction n as [|n IH]; intros s Hdepth value ctx t ctx' Hrun.
  - destruct s; cbn [depth] in Hdepth; try lia.
    cbn [build] in Hrun. exists t. split; [|intros e He _; exact He].
    econstructor. exact Hrun.
  - destruct s as [v|steps|members msg|item msg].
    + cbn [build] in Hrun. exists t. split; [|intros e He _; exact He].
      econstructor. exact Hrun.
    + cbn [build] in Hrun.
      destruct (pipe_keeps_stamp _ _ _ _ _ Hrun)
        as (k & step & input & c & t1 & Hnth & Hpre & Hc & Hstep & Hkeep).
      rewrite nth_error_map in Hnth.
      destruct (nth_error steps k) as [s'|] eqn:Hk; [|discriminate].
      cbn in Hnth. injection Hnth as <-.
      destruct (IH s') with (2 := Hstep) as (t0 & Hraised & Hkeep0).
      { pose proof (depth_step steps s' (nth_error_In _ _ Hk)). lia. }
      exists t0. split.
      * eapply raised_step; eassumption.
      * intros e He Hs. apply Hkeep; [|exact Hs]. now apply Hkeep0.
    + pose proof Hrun as Hrun'. cbn [build] in Hrun'.
      destruct (object_keeps_stamp _ _ _ _ _ _ Hrun')
        as [Hno | (Hyes & i & key & validator & t1 & Hnth & Hbefore & Hcall
                   & Hkeep)].
      * exists t. split; [|intros e He _; exact He].
        eapply raised_object; eassumption.
      * destruct (nth_error_built _ _ _ _ Hnth) as (s' & Hi & ->).
        unfold member_call in Hcall.
        destruct (build s' _ _) as [r c] eqn:Hstep. cbn [fst] in Hcall. subst r.
        destruct (IH s') with (2 := Hstep) as (t0 & Hraised & Hkeep0).
        { pose proof (depth_member members msg key s' (nth_error_In _ _ Hi)).
          lia. }
        exists t0. split.
        -- eapply raised_member; try eassumption.
           intros j kj sj Hj Hnthj. apply (Hbefore j); [exact Hj|].
           rewrite nth_error_map, Hnthj. reflexivity.
        -- intros e He Hs. apply Hkeep; [|exact Hs]. now apply Hkeep0.
    + pose proof Hrun as Hrun'. cbn [build] in Hrun'.
      destruct (array_keeps_stamp _ _ _ _ _ _ Hrun')
        as [Hno | (items & j & it & t1 & -> & Hnth & Hbefore & Hcall & Hkeep)].
      * exists t. split; [|intros e He _; exact He].
        eapply raised_array; eassumption.
      * unfold item_call in Hcall.
        destruct (build item _ _) as [r c] eqn:Hstep. cbn [fst] in Hcall. subst r.
        destruct (IH item) with (2 := Hstep) as (t0 & Hraised & Hkeep0).
        { cbn [depth] in Hdepth. lia. }
        exists t0. split.
        -- eapply raised_item; eassumption.
        -- intros e He Hs. apply Hkeep; [|exact Hs]. now apply Hkeep0.
Qed.

(** The converse, loop by loop: when the steps, members or items before a
    position return (the steps leaving the flag unset), the loop makes the
    call at that position, and a failure of that call is the failure of
    the loop. *)
Lemma pipe_loop_reaches (validators : list Validator) :
  forall k step value ctx input c,
    nth_error validators k = Some step ->
    pipe_loop (firstn k validators) value ctx = (Normal input, c) ->
    truthy_flag (Ctx.__abortPipe c) = false ->
    forall t ctx',
      step input c = (Throw t, ctx') ->
      pipe_loop validators value ctx = (Throw t, ctx').
Proof.
  induction validators as [|v rest IH];
    intros k step value ctx input c Hnth Hpre Hc t ctx' Hstep.
  - destruct k; discriminate.
  - destruct k as [|k].
    + injection Hnth as <-. cbn in Hpre. injection Hpre as <- <-.
      cbn [pipe_loop]. run. now rewrite Hc, Hstep.
    + cbn [nth_error] in Hnth. cbn [firstn pipe_loop] in Hpre |- *. run.
      destruct (truthy_flag (Ctx.__abortPipe ctx)) eqn:Hflag.
      * injection Hpre as <- <-. congruence.
      * destruct (v value ctx) as [[value1|t1] ctx1]; [|discriminate].
        eapply IH; eassumption.
Qed.

Lemma object_loop_reaches (shape : Shape) (value : Value) (ctx : Ctx.t) :
  forall i key validator t result,
    nth_error shape i = Some (key, validator) ->
    (forall j kj vj,
       j < i -> nth_error shape j = Some (kj, vj) ->
       exists out, member_call ctx value kj vj = Normal out) ->
    member_call ctx value key validator = Throw t ->
    object_loop shape value result ctx = (Throw t, ctx).
Proof.
  induction shape as [|[k v] rest IH];
    intros i key validator t result Hnth Hbefore Hcall.
  - destruct i; discriminate.
  - cbn [object_loop]. run. destruct i as [|i].
    + injection Hnth as <- <-. unfold member_call in Hcall.
      destruct (v _ _) as [r c]. cbn [fst] in *. now subst r.
    + cbn [nth_error] in Hnth.
      destruct (Hbefore 0 k v (Nat.lt_0_succ i) eq_refl) as [out Hout].
      unfold member_call in Hout.
      destruct (v _ _) as [r c]. cbn [fst] in *. subst r.
      apply (IH i key validator); [exact Hnth| |exact Hcall].
      intros j kj vj Hj Hnthj. apply (Hbefore (S j)); [lia | exact Hnthj].
Qed.

Lemma array_map_reaches (validator : Validator) (ctx : Ctx.t) :
  forall items j item t i,
    nth_error items j = Some item ->
    (forall j' y,
       j' < j -> nth_error items j' = Some y ->
       exists out, item_call ctx validator (i + Z.of_nat j') y = Normal out) ->
    item_call ctx validator (i + Z.of_nat j) item = Throw t ->
    array_map validator items i ctx = (Throw t, ctx).
Proof.
  induction items as [|x rest IH]; intros j item t i Hnth Hbefore Hcall.
  - destruct j; discriminate.
  - cbn [array_map]. run. destruct j as [|j].
    + injection Hnth as <-. unfold item_call in Hcall.
      replace (i + Z.of_nat 0)%Z with i in Hcall by lia.
      destruct (validator _ _) as [r c]. cbn [fst] in *. now subst r.
    + cbn [nth_error] in Hnth.
      destruct (Hbefore 0 x (Nat.lt_0_succ j) eq_refl) as [out Hout].
      unfold item_call in Hout.
      replace (i + Z.of_nat 0)%Z with i in Hout by lia.
      destruct (validator _ _) as [r c]. cbn [fst] in *. subst r.
      rewrite (IH j item t (i + 1)%Z); [reflexivity|exact Hnth| |].
      * intros j' y Hj Hnthj.
        replace (i + 1 + Z.of_nat j')%Z with (i + Z.of_nat (S j'))%Z by lia.
        apply Hbefore; [lia | exact Hnthj].
      * replace (i + 1 + Z.of_nat j)%Z with (i + Z.of_nat (S j))%Z by lia.
        exact Hcall.
Qed.

(** Any depth, the other way round: a failure raised at the end of the
    chain of calls makes the schema fail, with that failure itself when it
    is stamped. *)
Lemma raised_failure_is_thrown (s : Schema) (value : Value) (ctx : Ctx.t)
  (t0 : Thrown) :
  raised_in s value ctx t0 ->
  exists t ctx',
    build s value ctx = (Throw t, ctx')
    /\ forall e, t0 = ThrownError e -> stamped e -> t = ThrownError e.
Proof.
  induction 1
    as [v value ctx t0 ctx' Hrun
       | steps value ctx k s input c t0 Hnth Hpre Hc _ IH
       | members msg value ctx i key s t0 Hcheck Hnth Hbefore _ IH
       | members msg value ctx t0 ctx' Hcheck Hrun
       | item msg items ctx j x t0 Hnth Hbefore _ IH
       | item msg value ctx t0 ctx' Hcheck Hrun].
  - exists t0, ctx'. split; [exact Hrun | intros e He _; exact He].
  - destruct IH as (t1 & c1 & Hstep & Hkeep).
    exists (rethrown "pipe" value c1 t1), c1. split.
    + cbn [build]. rewrite pipe_run.
      rewrite (pipe_loop_reaches (map build steps) k (build s) value ctx
                 input c) with (t := t1) (ctx' := c1); try assumption.
      * reflexivity.
      * rewrite nth_error_map, Hnth. reflexivity.
    + intros e He Hs. rewrite (Hkeep e He Hs). now apply rethrown_stamped.
  - destruct IH as (t1 & c1 & Hstep & Hkeep).
    exists (rethrown "object" value ctx t1), ctx. split.
    + cbn [build]. unfold object. rewrite createValidator_run.
      fold (fails_object_check value). rewrite Hcheck. run.
      rewrite (object_loop_reaches _ value ctx i key (build s) t1).
      * reflexivity.
      * rewrite nth_error_map, Hnth. reflexivity.
      * intros j kj vj Hj Hnthj.
        destruct (nth_error_built _ _ _ _ Hnthj) as (sj & Hsj & ->).
        now apply (Hbefore j kj sj).
      * unfold member_call. now rewrite Hstep.
    + intros e He Hs. rewrite (Hkeep e He Hs). now apply rethrown_stamped.
  - exists t0, ctx'. split; [exact Hrun | intros e He _; exact He].
  - destruct IH as (t1 & c1 & Hstep & Hkeep).
    exists (rethrown "array" (VArr items) ctx t1), ctx. split.
    + cbn [build]. unfold array. rewrite createValidator_run.
      cbn [isArray negb items_of]. run.
      rewrite (array_map_reaches (build item) ctx items j x t1 0%Z);
        [reflexivity | exact Hnth | exact Hbefore |].
      unfold item_call. cbn [Z.add]. now rewrite Hstep.
    + intros e He Hs. rewrite (Hkeep e He Hs). now apply rethrown_stamped.
  - exists t0, ctx'. split; [exact Hrun | intros e He _; exact He].
Qed.

(** C2, amended (first stamp wins, for non-empty names).  When the handler
    of a validator built by [createValidator] throws an [Error] (or a
    non-error, around whose text a new [Error] is made), the validator
    throws that [Error]:
    - if it carries a non-empty [expected], it is re-thrown as it is, all
      its fields unchanged;
    - if [expected] is absent or the empty string, [expected] becomes the
      wrapper's name, [actual] the input value and [path], [key], [parent],
      [root] those of the context of the call; the message is kept.
    Hence, under any nesting of [pipe], [object] and [array] over leaves
    of any kind: when the outermost validator fails, the failure was
    raised at the end of the chain of calls that the code makes down to
    the innermost failing call (of a leaf, or the structure check of an
    inner [object] or [array]), and if what was raised there is an error
    with a non-empty [expected], the outermost validator throws that very
    error, kind name, actual and location included.  Conversely, whatever
    is raised at the end of such a chain makes the outermost validator
    fail, with that very error when it carries a non-empty [expected]. *)
Theorem C2_first_stamp_wins :
  (forall (Args : Type) (name : str) (handler : Value -> Args -> M Value)
          (args : Args) (value : Value) (ctx : Ctx.t)
          (err : Thrown) (ctx' : Ctx.t) (error : ValidationError.t),
     handler value args ctx = (Throw err, ctx') ->
     as_Error err = Normal error ->
     exists e',
       createValidator name handler args value ctx
       = (Throw (ThrownError e'), ctx')
       /\ (stamped error -> e' = error)
       /\ (~ stamped error ->
           e' = ValidationError.mk
                  (ValidationError.message error)
                  (Some name) (Some value)
                  (Some (Ctx.path ctx')) (Some (Ctx.key ctx'))
                  (Some (Ctx.parent ctx')) (Some (Ctx.root ctx'))))
  /\ (forall (s : Schema) (value : Value) (ctx : Ctx.t)
             (t : Thrown) (ctx' : Ctx.t),
        build s value ctx = (Throw t, ctx') ->
        exists t0,
          raised_in s value ctx t0
          /\ forall e, t0 = ThrownError e -> stamped e -> t = ThrownError e)
  /\ (forall (s : Schema) (value : Value) (ctx : Ctx.t) (t0 : Thrown),
        raised_in s value ctx t0 ->
        exists t ctx',
          build s value ctx = (Throw t, ctx')
          /\ forall e, t0 = ThrownError e -> stamped e -> t = ThrownError e).
Proof.
  split; [|split].
  - intros Args name handler args value ctx err ctx' error Hh Herr.
    exists (enrich name value ctx' error).
    rewrite createValidator_run, Hh. unfold rethrown. rewrite Herr.
    split; [reflexivity|]. split.
    + intros Hs. unfold enrich. unfold stamped in Hs. now rewrite Hs.
    + intros Hn. now rewrite enrich_unstamped.
  - intros s. apply (failure_is_raised_inside (depth s)). apply le_n.
  - exact raised_failure_is_thrown.
Qed.

Lemma C2_first_stamp_wins_witness :
  (exists e',
     string None (VNum 1) Sample.ctx1 = (Throw (ThrownError e'), Sample.ctx1)
     /\ ValidationError.expected e' = Some "string"
     /\ ValidationError.path e' = Some "$")
  /\ (exists e,
        fst (build Sample.user_tree Sample.bad_user
               (makeCtx None KNull Sample.bad_user))
        = Throw (ThrownError e)
        /\ ValidationError.expected e = Some "number"
        /\ ValidationError.path e = Some "$.user.age"
        /\ exists t0,
             raised_in Sample.user_tree Sample.bad_user
               (makeCtx None KNull Sample.bad_user) t0
             /\ forall e0,
                  t0 = ThrownError e0 -> stamped e0 ->
                  ThrownError e = ThrownError e0).
Proof.
  split.
  - destruct (proj1 C2_first_stamp_wins (option str) "string"
                (primitive_handler "string") None (VNum 1) Sample.ctx1
                _ _ _ eq_refl eq_refl) as (e' & Hrun & _ & Hnew).
    exists e'. split; [exact Hrun|].
    rewrite (Hnew (fun H : stamped (new_Error "($: 1) ✖ string") =>
                     Bool.diff_false_true H)).
    split; reflexivity.
  - eexists. split; [reflexivity|]. split; [reflexivity|].
    split; [reflexivity|].
    exact (proj1 (proj2 C2_first_stamp_wins) Sample.user_tree
             Sample.bad_user (makeCtx None KNull Sample.bad_user)
             _ _ eq_refl).
Defined.

(** *** check *)

Lemma is_true_spec (v : Value) : is_true v = true <-> v = VBool true.
Proof.
  destruct v as [| |[|]| | | | | | | |]; cbn; split; intros H;
    try reflexivity; try discriminate.
Qed.

(** The name under which [check(fn)] registers: [fn.name || 'check']. *)
Lemma check_run (fn : Fn.t) (msg : option str) (value : Value) (ctx : Ctx.t) :
  let name := if truthy_str (Fn.name fn) then Fn.name fn else "check" in
  check fn msg value ctx
  = match Fn.call fn value ctx with
    | (Normal result, c) =>
        if is_true result then (Normal value, c)
        else
          match msg_or msg (default_message value name) c with
          | (Normal message, c') =>
              (Throw (ThrownError (stamp name value c' (new_Error message))), c')
          | (Throw t, c') => (Throw (rethrown name value c' t), c')
          end
    | (Throw t, c) => (Throw (rethrown name value c t), c)
    end.
Proof.
  cbn zeta. unfold check. rewrite createValidator_run.
  unfold throw_new_Error, bind, throw.
  destruct (Fn.call fn value ctx) as [[result|t] c]; [|reflexivity].
  destruct (is_true result); [reflexivity|].
  destruct (msg_or msg _ c) as [[message|t] c']; reflexivity.
Qed.

(** C7 as stated fails in two places.  A message that is given but empty
    is falsy for [msg || ...], so the default message is used; and the
    default message is built with [formatValue], whose [JSON.stringify]
    throws on an array or object that holds a bigint: the failure then
    carries the message of that TypeError, without path or name. *)
Lemma C7_empty_message_and_unrenderable_value :
  (exists e,
     validate (check Sample.isPositive (Some EmptyString)) (VNum 0) None
     = Invalid (ThrownError e) (VNum 0)
     /\ ValidationError.message e = "($: 0) ✖ isPositive"
     /\ ValidationError.message e <> EmptyString)
  /\ (exists e e0,
        validate (check Sample.isPositive None) (VArr [VBigInt 0]) None
        = Invalid (ThrownError e) (VArr [VBigInt 0])
        /\ formatValue (VArr [VBigInt 0]) = Throw (ThrownError e0)
        /\ ValidationError.message e = ValidationError.message e0).
Proof.
  split.
  - eexists. split; [reflexivity|]. split; [reflexivity | discriminate].
  - eexists _, _. split; [reflexivity|]. split; reflexivity.
Qed.

(** C7, amended.  When the predicate returns [result] on the value,
    [check(fn, msg)] returns the value exactly when [result] is the boolean
    [true]; on every other result it throws, with
    - the caller's message, when one is given and is not the empty string;
    - otherwise (no message, or the empty one), and when [formatValue]
      renders the value as [text], the default message
      [(path: text) ✖ name], where [path] is the path of the context and
      [name] is the predicate's own name, or [check] for an anonymous
      predicate.
    The error is stamped with that name and with the location of the
    call.  When the predicate itself throws, what it threw leaves [check]
    through the wrapper of [createValidator]. *)
Theorem C7_check_gate :
  (forall (fn : Fn.t) (msg : option str) (value : Value) (ctx : Ctx.t)
          (result : Value) (ctx1 : Ctx.t),
     Fn.call fn value ctx = (Normal result, ctx1) ->
     let name := if truthy_str (Fn.name fn) then Fn.name fn else "check" in
     let failure message :=
       (Throw (ThrownError
                 (ValidationError.mk message (Some name) (Some value)
                    (Some (Ctx.path ctx1)) (Some (Ctx.key ctx1))
                    (Some (Ctx.parent ctx1)) (Some (Ctx.root ctx1)))),
        ctx1) in
     (result = VBool true -> check fn msg value ctx = (Normal value, ctx1))
     /\ (result <> VBool true ->
         (exists t, check fn msg value ctx = (Throw t, ctx1))
         /\ (forall m, msg = Some m -> m <> EmptyString ->
               check fn msg value ctx = failure m)
         /\ (msg = None \/ msg = Some EmptyString ->
             forall text, formatValue value = Normal text ->
               check fn msg value ctx
               = failure ("(" ++ Ctx.path ctx1 ++ ": " ++ text ++ ") ✖ " ++ name)))
     /\ (fst (check fn msg value ctx) = Normal value <-> result = VBool true))
  /\ (forall (fn : Fn.t) (msg : option str) (value : Value) (ctx : Ctx.t)
             (t : Thrown) (ctx1 : Ctx.t),
        Fn.call fn value ctx = (Throw t, ctx1) ->
        let name := if truthy_str (Fn.name fn) then Fn.name fn else "check" in
        check fn msg value ctx = (Throw (rethrown name value ctx1 t), ctx1)).
Proof.
  split.
  2:{ intros fn msg value ctx t ctx1 Hfn name.
      pose proof (check_run fn msg value ctx) as Hrun. cbn zeta in Hrun.
      rewrite Hfn in Hrun. exact Hrun. }
  intros fn msg value ctx result ctx1 Hfn name failure.
  pose proof (check_run fn msg value ctx) as Hrun. cbn zeta in Hrun.
  fold name in Hrun. rewrite Hfn in Hrun.
  assert (Hfail : result <> VBool true ->
            check fn msg value ctx
            = match msg_or msg (default_message value name) ctx1 with
              | (Normal message, c') =>
                  (Throw (ThrownError (stamp name value c' (new_Error message))), c')
              | (Throw t, c') => (Throw (rethrown name value c' t), c')
              end).
  { intros Hne. destruct (is_true result) eqn:Ht; [|exact Hrun].
    apply is_true_spec in Ht. contradiction. }
  split; [|split].
  - intros ->. exact Hrun.
  - intros Hne. specialize (Hfail Hne). split; [|split].
    + rewrite Hfail. unfold msg_or, default_message, bind, lift, ret, this_ctx.
      destruct msg as [m|]; [destruct (truthy_str m)|];
        try (eexists; reflexivity);
        destruct (formatValue value); eexists; reflexivity.
    + intros m -> Hm. rewrite Hfail. unfold msg_or, ret.
      destruct m as [|c m]; [contradiction|]. reflexivity.
    + intros Hmsg text Htext. rewrite Hfail.
      unfold msg_or, default_message, bind, lift, ret, this_ctx.
      destruct Hmsg as [-> | ->]; cbn [truthy_str]; rewrite Htext; reflexivity.
  - split.
    + intros Hret. destruct (is_true result) eqn:Ht.
      * now apply is_true_spec.
      * rewrite Hrun in Hret. exfalso.
        destruct (msg_or msg (default_message value name) ctx1) as [[m|t] c'];
          discriminate.
    + intros ->. rewrite Hrun. reflexivity.
Qed.

Lemma C7_check_gate_witness :
  check Sample.isPositive (Some "must be > 0") (VNum 1) Sample.ctx1
  = (Normal (VNum 1), Sample.ctx1)
  /\ (exists e,
        check Sample.isPositive (Some "must be > 0") (VNum 0) Sample.ctx1
        = (Throw (ThrownError e), Sample.ctx1)
        /\ ValidationError.message e = "must be > 0")
  /\ (exists e,
        check Sample.isPositive None (VNum 0) Sample.ctx1
        = (Throw (ThrownError e), Sample.ctx1)
        /\ ValidationError.message e = "($: 0) ✖ isPositive").
Proof.
  pose (not_true := fun H : VBool false = VBool true =>
                      Bool.diff_false_true (f_equal is_true H)).
  split; [|split].
  - exact (proj1 (proj1 C7_check_gate Sample.isPositive (Some "must be > 0")
                    (VNum 1) Sample.ctx1 (VBool true) Sample.ctx1 eq_refl)
             eq_refl).
  - eexists. split.
    + refine (proj1 (proj2 (proj1 (proj2
                (proj1 C7_check_gate Sample.isPositive (Some "must be > 0")
                   (VNum 0) Sample.ctx1 (VBool false) Sample.ctx1 eq_refl))
                not_true)) _ eq_refl _).
      discriminate.
    + reflexivity.
  - eexists. split.
    + exact (proj2 (proj2 (proj1 (proj2
               (proj1 C7_check_gate Sample.isPositive None
                  (VNum 0) Sample.ctx1 (VBool false) Sample.ctx1 eq_refl))
               not_true)) (or_introl eq_refl) _ eq_refl).
    + reflexivity.
Defined.

(** The messages of the test-suite: the caller's message, the default
    message with the predicate's name, and with [check] for an arrow
    function; a truthy result that is not [true] fails as well. *)
Example check_messages_of_the_tests :
  (exists e,
     validate (pipe [number None; check Sample.isPositive (Some "must be > 0")])
       (VNum 0) None = Invalid (ThrownError e) (VNum 0)
     /\ ValidationError.message e = "must be > 0")
  /\ (exists e,
        validate (pipe [number None; check Sample.isPositive None])
          (VNum 0) None = Invalid (ThrownError e) (VNum 0)
        /\ ValidationError.message e = "($: 0) ✖ isPositive")
  /\ (exists e,
        validate (check (Fn.mk EmptyString (fun _ => ret (VNum 1))) None)
          (VNum 0) None = Invalid (ThrownError e) (VNum 0)
        /\ ValidationError.message e = "($: 0) ✖ check"
        /\ ValidationError.expected e = Some "check").
Proof.
  repeat split; eexists; repeat split; reflexivity.
Qed.

(** *** object: the assembled result *)

(** Writing a key that the object does not have yet appends it, unless
    the key is [__proto__]. *)
Lemma SetProp_fresh (props : list (str * Value)) (key : str) (v : Value) :
  key <> "__proto__" ->
  ~ In key (map fst props) -> SetProp props key v = (props ++ [(key, v)])%list.
Proof.
  intros Hkey.
  induction props as [|[k w] rest IH]; intros Hfresh.
  - cbn [SetProp app]. destruct (String.eqb_spec key "__proto__"); [contradiction|].
    reflexivity.
  - cbn [SetProp]. destruct (String.eqb_spec k key) as [->|Hne].
    + elim Hfresh. now left.
    + cbn [app]. rewrite IH; [reflexivity|].
      intros Hin. apply Hfresh. now right.
Qed.

Lemma Forall2_member_output_keys (ctx : Ctx.t) (value : Value)
  (shape : Shape) (outs : list (str * Value)) :
  Forall2 (member_output ctx value) shape outs ->
  map fst outs = map fst shape.
Proof.
  induction 1 as [|member binding shape outs [Hkey _] _ IH]; cbn.
  - reflexivity.
  - now rewrite Hkey, IH.
Qed.

(** The loop of [object] returns exactly when every member call returns,
    and then it has appended the outputs, key by key, in the order of the
    shape. *)
Lemma object_loop_normal (shape : Shape) (value : Value) (ctx : Ctx.t) :
  forall (result outs : list (str * Value)),
    NoDup (map fst shape) ->
    ~ In "__proto__" (map fst shape) ->
    (forall k, In k (map fst shape) -> ~ In k (map fst result)) ->
    (fst (object_loop shape value result ctx) = Normal outs
     <-> exists news,
           outs = (result ++ news)%list
           /\ Forall2 (member_output ctx value) shape news).
Proof.
  induction shape as [|[key validator] rest IH];
    intros result outs Hnodup Hproto Hfresh.
  - cbn. split.
    + intros [= <-]. exists []. split; [now rewrite app_nil_r | constructor].
    + intros (news & -> & HF). inversion HF. now rewrite app_nil_r.
  - cbn [map fst] in Hnodup, Hproto, Hfresh.
    inversion Hnodup as [|? ? Hnotin Hnodup']; subst.
    cbn [object_loop]. run.
    destruct (validator (Get value key)
                (makeCtx (Some ctx) (KStr key) (Get value key)))
      as [[out|t] c] eqn:Hv; cbn [fst].
    + rewrite SetProp_fresh;
        [|intros ->; apply Hproto; now left | apply Hfresh; now left].
      rewrite IH; [|exact Hnodup'|intros Hin; apply Hproto; now right|].
      * split.
        -- intros (news & -> & HF). exists ((key, out) :: news).
           split; [now rewrite <- app_assoc|].
           constructor; [|exact HF].
           split; [reflexivity|]. unfold member_call. cbn [fst snd].
           now rewrite Hv.
        -- intros (news & -> & HF).
           inversion HF as [|? [k o] ? news' [Hk Hcall] HF']; subst.
           cbn [fst snd] in Hk, Hcall. subst k.
           unfold member_call in Hcall. rewrite Hv in Hcall.
           injection Hcall as <-.
           exists news'. split; [now rewrite <- app_assoc | exact HF'].
      * intros k Hk. rewrite map_app, in_app_iff. cbn.
        intros [Hin | [<- | []]].
        -- apply (Hfresh k); [now right | exact Hin].
        -- contradiction.
    + split; [discriminate|].
      intros (news & _ & HF).
      inversion HF as [|? [k o] ? news' [Hk Hcall] HF']; subst.
      cbn [fst snd] in Hk, Hcall. subst k.
      unfold member_call in Hcall. rewrite Hv in Hcall. discriminate.
Qed.

(** [object] on a value that passes its check, by the completion of its
    loop. *)
Lemma object_run (shape : Shape) (msg : option str)
  (value : Value) (ctx : Ctx.t) :
  fails_object_check value = false ->
  object shape msg value ctx
  = match fst (object_loop shape value [] ctx) with
    | Normal result => (Normal (VObj result), ctx)
    | Throw t => (Throw (rethrown "object" value ctx t), ctx)
    end.
Proof.
  intros Hcheck. unfold object. rewrite createValidator_run.
  fold (fails_object_check value). rewrite Hcheck. run.
  pose proof (object_loop_ctx shape value [] ctx) as Hctx.
  destruct (object_loop shape value [] ctx) as [[r|t] c];
    cbn [fst snd] in *; subst c; reflexivity.
Qed.

(** The values that pass the check at the head of [object] are the plain
    objects and [Object.prototype]. *)
Lemma object_guard (value : Value) :
  fails_object_check value = false
  <-> (exists props, value = VObj props) \/ value = VObjectPrototype.
Proof.
  destruct value; cbn; split; intros H;
    try discriminate; try reflexivity;
    try (destruct H as [[props H] | H]; discriminate).
  - left. eexists. reflexivity.
  - now right.
Qed.




(** *** index.js *)

(** With no step the reduce-based [pipe] of index.js returns the value as
    well; it knows no flag and leaves the context as it is. *)
Lemma IndexJs_pipe_nil (value : Value) (ctx : Ctx.t) :
  IndexJs.pipe [] value ctx = (Normal value, ctx).
Proof. reflexivity. Qed.

(** The [check] of index.js registers under the fixed name [check]: on
    the failing sample of the test-suite it throws the error of the
    TypeScript [check], message included, but for the kind name. *)
Example IndexJs_check_of_the_tests :
  exists e e',
    check Sample.isPositive None (VNum 0) Sample.ctx1
    = (Throw (ThrownError e), Sample.ctx1)
    /\ IndexJs.check Sample.isPositive None (VNum 0) Sample.ctx1
       = (Throw (ThrownError e'), Sample.ctx1)
    /\ ValidationError.message e = "($: 0) ✖ isPositive"
    /\ ValidationError.message e' = "($: 0) ✖ isPositive"
    /\ ValidationError.expected e = Some "isPositive"
    /\ ValidationError.expected e' = Some "check".
Proof. eexists. eexists. repeat split. Qed.

(* ================================================================== *)
(** ** Further properties of the code *)
(* ================================================================== *)

(** *** makeCtx along a chain *)

Lemma descend_app (chain1 chain2 : list (Step * Value)) :
  forall ctx, descend ctx (chain1 ++ chain2)%list = descend (descend ctx chain1) chain2.
Proof.
  induction chain1 as [|[k v] rest IH]; intros ctx; cbn; [reflexivity | apply IH].
Qed.

Lemma descend_root (chain : list (Step * Value)) :
  forall ctx, Ctx.root (descend ctx chain) = Ctx.root ctx.
Proof.
  induction chain as [|[k v] rest IH]; intros ctx; cbn [descend];
    [reflexivity | now rewrite IH].
Qed.

(** X1 (contexts along a descent).  The root context built by
    [makeCtx(null, k0, v0)] has root [v0], parent [null] and no abort
    flag.  After any chain of descents from a context, one more descent by
    key [k] to value [v] gives a context whose key is [k], whose value is
    [v], whose parent is the value of the context it was made from (not
    that one's parent), whose root is still the root of the start, and
    which has no abort flag. *)
Theorem X1_makeCtx_chain :
  (forall (k0 : Key) (v0 : Value),
     Ctx.root (makeCtx None k0 v0) = v0
     /\ Ctx.parent (makeCtx None k0 v0) = VNull
     /\ Ctx.value (makeCtx None k0 v0) = v0
     /\ Ctx.__abortPipe (makeCtx None k0 v0) = None)
  /\ (forall (ctx : Ctx.t) (chain : list (Step * Value)) (k : Step) (v : Value),
        let inner := descend ctx (chain ++ [(k, v)])%list in
        Ctx.key inner = key_of k
        /\ Ctx.value inner = v
        /\ Ctx.parent inner = Ctx.value (descend ctx chain)
        /\ Ctx.root inner = Ctx.root ctx
        /\ Ctx.__abortPipe inner = None).
Proof.
  split.
  - intros k0 v0. repeat split.
  - intros ctx chain k v inner. subst inner. rewrite descend_app. cbn [descend].
    repeat split. cbn. apply descend_root.
Qed.

(** *** Guards and presence gates *)

(** The formatter can only fail with the TypeError on a bigint, so
    [throw new Error(msg || template)] throws a fresh, unstamped error. *)
Lemma formatValue_throw_bigint (value : Value) (t : Thrown) :
  formatValue value = Throw t -> t = BigInt_TypeError.
Proof.
  destruct value; try (cbn; discriminate);
    unfold formatValue; destruct (JSON_stringify _); try discriminate;
    now intros [= <-].
Qed.

Lemma throw_new_Error_fresh {A : Type} (msg : option str) (value : Value)
  (name : str) (ctx : Ctx.t) :
  exists message,
    @throw_new_Error A msg (default_message value name) ctx
    = (Throw (ThrownError (new_Error message)), ctx).
Proof.
  unfold throw_new_Error, msg_or, default_message, bind, lift, ret, throw,
    this_ctx.
  destruct msg as [m|]; [destruct (truthy_str m)|];
    try (eexists; reflexivity);
    destruct (formatValue value) as [text|t] eqn:Hf;
    try (eexists; reflexivity);
    rewrite (formatValue_throw_bigint _ _ Hf); eexists; reflexivity.
Qed.

(** A guard by the type of its input. *)
Lemma primitive_run (type : str) (msg : option str) (value : Value)
  (ctx : Ctx.t) :
  if String.eqb (typeof value) type
  then primitive type msg value ctx = (Normal value, ctx)
  else exists message,
         primitive type msg value ctx
         = (Throw (ThrownError (stamp type value ctx (new_Error message))), ctx).
Proof.
  unfold primitive. rewrite createValidator_run. unfold primitive_handler.
  destruct (String.eqb (typeof value) type); cbn [negb]; [reflexivity|].
  destruct (@throw_new_Error_fresh Value msg value type ctx) as [m ->].
  exists m. reflexivity.
Qed.

Lemma required_run (msg : option str) (value : Value) (ctx : Ctx.t) :
  if eq_null value
  then exists message,
         required msg value ctx
         = (Throw (ThrownError (stamp "required" value ctx (new_Error message))),
            ctx)
  else required msg value ctx = (Normal value, ctx).
Proof.
  unfold required. rewrite createValidator_run.
  destruct (eq_null value); [|reflexivity].
  destruct (@throw_new_Error_fresh Value msg value "required" ctx) as [m ->].
  exists m. reflexivity.
Qed.

(** With the flag set the loop of [pipe] runs nothing. *)
Lemma pipe_loop_flag_set (validators : list Validator) (value : Value)
  (ctx : Ctx.t) :
  truthy_flag (Ctx.__abortPipe ctx) = true ->
  pipe_loop validators value ctx = (Normal value, ctx).
Proof.
  intros Hflag. destruct validators as [|v rest]; [reflexivity|].
  cbn [pipe_loop]. run. now rewrite Hflag.
Qed.

Lemma pipe_loop_step (v : Validator) (rest : list Validator) (value : Value)
  (ctx : Ctx.t) :
  truthy_flag (Ctx.__abortPipe ctx) = false ->
  pipe_loop (v :: rest) value ctx
  = match v value ctx with
    | (Normal value', ctx') => pipe_loop rest value' ctx'
    | (Throw t, ctx') => (Throw t, ctx')
    end.
Proof. intros Hflag. cbn [pipe_loop]. run. now rewrite Hflag. Qed.

(** X2 ([optional] as the gate of a pipe).  Whatever steps follow it,
    [pipe(optional(), ...rest)] returns null and undefined as they are,
    running none of the steps, and leaves no flag behind; on every other
    value it is [pipe(...rest)]. *)
Theorem X2_optional_gate :
  forall (rest : list Validator) (value : Value) (ctx : Ctx.t),
    pipe (optional tt :: rest) value ctx
    = if eq_null value
      then (Normal value, Ctx.delete_abortPipe ctx)
      else pipe rest value ctx.
Proof.
  intros rest value ctx. rewrite !pipe_run.
  destruct (truthy_flag (Ctx.__abortPipe ctx)) eqn:Hflag.
  - rewrite !pipe_loop_flag_set by exact Hflag.
    destruct (eq_null value); reflexivity.
  - rewrite pipe_loop_step by exact Hflag.
    destruct (eq_null value) eqn:Hnull.
    + assert (Hopt : optional tt value ctx
                     = (Normal value, Ctx.set_abortPipe true ctx))
        by (destruct value; try discriminate; reflexivity).
      rewrite Hopt, pipe_loop_flag_set by reflexivity. reflexivity.
    + assert (Hopt : optional tt value ctx = (Normal value, ctx))
        by (destruct value; try discriminate; reflexivity).
      rewrite Hopt. reflexivity.
Qed.

(** X3 ([required]).  [required(msg)] returns every value but null and
    undefined as it is, without touching the context; on null and undefined
    it throws an error stamped [required] with the value and the location
    of the context.  After it an [optional()] changes nothing:
    [pipe(required(msg), optional(), ...rest)] is
    [pipe(required(msg), ...rest)]. *)
Theorem X3_required :
  forall (msg : option str) (value : Value) (ctx : Ctx.t),
    (if eq_null value
     then exists message,
            required msg value ctx
            = (Throw (ThrownError
                        (ValidationError.mk message (Some "required")
                           (Some value) (Some (Ctx.path ctx))
                           (Some (Ctx.key ctx)) (Some (Ctx.parent ctx))
                           (Some (Ctx.root ctx)))),
               ctx)
     else required msg value ctx = (Normal value, ctx))
    /\ forall rest : list Validator,
         pipe (required msg :: optional tt :: rest) value ctx
         = pipe (required msg :: rest) value ctx.
Proof.
  intros msg value ctx. pose proof (required_run msg value ctx) as Hreq.
  split.
  - destruct (eq_null value); [|exact Hreq].
    destruct Hreq as [m Hm]. exists m. exact Hm.
  - intros rest. rewrite !pipe_run.
    destruct (truthy_flag (Ctx.__abortPipe ctx)) eqn:Hflag.
    + rewrite !pipe_loop_flag_set by exact Hflag. reflexivity.
    + rewrite !(pipe_loop_step (required msg)) by exact Hflag.
      destruct (eq_null value) eqn:Hnull.
      * destruct Hreq as [m ->]. reflexivity.
      * rewrite Hreq, pipe_loop_step by exact Hflag.
        assert (Hopt : optional tt value ctx = (Normal value, ctx))
          by (destruct value; try discriminate; reflexivity).
        rewrite Hopt. reflexivity.
Qed.

(** X4 (the primitive guards).  A guard returns its input, untouched and
    with the context untouched, exactly when [typeof] of the input is the
    guard's type; otherwise it throws an error stamped with the type name,
    the input and the location of the context.  So [string()] accepts the
    strings and nothing else, and likewise [number()], [bigint()],
    [boolean()] and [symbol()]; no two guards accept the same value, and
    null, undefined, functions, arrays and objects are accepted by
    none. *)
Theorem X4_primitive_guards :
  (forall (type : str) (msg : option str) (value : Value) (ctx : Ctx.t),
     (typeof value = type -> primitive type msg value ctx = (Normal value, ctx))
     /\ (typeof value <> type ->
         exists message,
           primitive type msg value ctx
           = (Throw (ThrownError
                       (ValidationError.mk message (Some type) (Some value)
                          (Some (Ctx.path ctx)) (Some (Ctx.key ctx))
                          (Some (Ctx.parent ctx)) (Some (Ctx.root ctx)))),
              ctx)))
  /\ (forall (msg : option str) (value : Value) (ctx : Ctx.t),
        (fst (string msg value ctx) = Normal value <-> exists s, value = VStr s)
        /\ (fst (number msg value ctx) = Normal value <-> exists n, value = VNum n)
        /\ (fst (bigint msg value ctx) = Normal value
            <-> exists n, value = VBigInt n)
        /\ (fst (boolean msg value ctx) = Normal value
            <-> exists b, value = VBool b)
        /\ (fst (symbol msg value ctx) = Normal value
            <-> exists d, value = VSymbol d))
  /\ (forall (type1 type2 : str) (msg1 msg2 : option str) (value : Value)
             (ctx1 ctx2 : Ctx.t) (r1 r2 : Value),
        fst (primitive type1 msg1 value ctx1) = Normal r1 ->
        fst (primitive type2 msg2 value ctx2) = Normal r2 ->
        type1 = type2).
Proof.
  assert (Hrun : forall type msg value ctx r,
            fst (primitive type msg value ctx) = Normal r ->
            typeof value = type).
  { intros type msg value ctx r H.
    pose proof (primitive_run type msg value ctx) as Hp.
    destruct (String.eqb_spec (typeof value) type) as [Heq|Hne]; [exact Heq|].
    destruct Hp as [m Hm]. rewrite Hm in H. discriminate. }
  split; [|split].
  - intros type msg value ctx.
    pose proof (primitive_run type msg value ctx) as Hp.
    destruct (String.eqb_spec (typeof value) type) as [Heq|Hne]; split;
      intros H; try contradiction.
    + exact Hp.
    + destruct Hp as [m Hm]. exists m. exact Hm.
  - intros msg value ctx.
    repeat split; intros H;
      try (apply Hrun in H; destruct value; try discriminate; eexists; reflexivity);
      destruct H as [x ->]; reflexivity.
  - intros type1 type2 msg1 msg2 value ctx1 ctx2 r1 r2 H1 H2.
    apply Hrun in H1, H2. congruence.
Qed.

(** *** array *)

(** The [map] of [array] returns exactly when every item call returns, and
    then with the outputs in the order of the items. *)
Lemma array_map_normal (validator : Validator) (ctx : Ctx.t)
  (items : list Value) :
  forall (i : Z) (outs : list Value),
    fst (array_map validator items i ctx) = Normal outs
    <-> item_outputs ctx validator i items outs.
Proof.
  induction items as [|item rest IH]; intros i outs.
  - cbn. split.
    + intros [= <-]. constructor.
    + intros H. inversion H. reflexivity.
  - cbn [array_map]. run.
    destruct (validator item (makeCtx (Some ctx) (KNum i) item))
      as [[out|t] c] eqn:Hv; cbn [fst].
    + pose proof (array_map_ctx validator rest (i + 1)%Z ctx) as Hctx.
      specialize (IH (i + 1)%Z).
      destruct (array_map validator rest (i + 1) ctx) as [[outs'|t] c'];
        cbn [fst snd] in *.
      * split.
        -- intros [= <-]. constructor.
           ++ unfold item_call. now rewrite Hv.
           ++ now apply IH.
        -- intros H. inversion H as [|? ? ? o os Hcall Hrest]; subst.
           unfold item_call in Hcall. rewrite Hv in Hcall.
           injection Hcall as <-.
           apply IH in Hrest. injection Hrest as <-. reflexivity.
      * split; [discriminate|].
        intros H. inversion H as [|? ? ? o os Hcall Hrest]; subst.
        apply IH in Hrest. discriminate.
    + split; [discriminate|].
      intros H. inversion H as [|? ? ? o os Hcall Hrest]; subst.
      unfold item_call in Hcall. rewrite Hv in Hcall. discriminate.
Qed.

Lemma item_outputs_length (ctx : Ctx.t) (validator : Validator) (i : Z)
  (items outs : list Value) :
  item_outputs ctx validator i items outs -> length outs = length items.
Proof. induction 1; cbn; [reflexivity | now f_equal]. Qed.

(** [array] on an array, by the completion of its [map]; on anything
    else. *)
Lemma array_run (validator : Validator) (msg : option str)
  (items : list Value) (ctx : Ctx.t) :
  array validator msg (VArr items) ctx
  = match fst (array_map validator items 0 ctx) with
    | Normal outs => (Normal (VArr outs), ctx)
    | Throw t => (Throw (rethrown "array" (VArr items) ctx t), ctx)
    end.
Proof.
  unfold array. rewrite createValidator_run. cbn. run.
  pose proof (array_map_ctx validator items 0 ctx) as Hctx.
  destruct (array_map validator items 0 ctx) as [[r|t] c];
    cbn [fst snd] in *; subst c; reflexivity.
Qed.

Lemma array_not_array (validator : Validator) (msg : option str)
  (value : Value) (ctx : Ctx.t) :
  isArray value = false ->
  exists message,
    array validator msg value ctx
    = (Throw (ThrownError (stamp "array" value ctx (new_Error message))), ctx).
Proof.
  intros Hno. unfold array. rewrite createValidator_run. rewrite Hno.
  cbn [negb].
  destruct (@throw_new_Error_fresh Value msg value "array" ctx) as [m ->].
  exists m. reflexivity.
Qed.

(** X5 ([array]).  On an array, [array(validator)] returns an array
    [outs] exactly when [outs] holds, index by index from 0, the output of
    the item validator on the item with the child context of that index;
    what it returns has the length of the input, and the context of the
    call is untouched.  The empty array is returned as the empty array,
    whatever the item validator.  On anything that is not an array it
    throws an error stamped [array] with the value and the location of the
    context. *)
Theorem X5_array_outputs :
  forall (validator : Validator) (msg : option str) (ctx : Ctx.t),
    (forall items outs,
       array validator msg (VArr items) ctx = (Normal (VArr outs), ctx)
       <-> item_outputs ctx validator 0 items outs)
    /\ (forall items r ctx',
          array validator msg (VArr items) ctx = (Normal r, ctx') ->
          ctx' = ctx
          /\ exists outs, r = VArr outs /\ length outs = length items)
    /\ array validator msg (VArr []) ctx = (Normal (VArr []), ctx)
    /\ (forall value,
          isArray value = false ->
          exists message,
            array validator msg value ctx
            = (Throw (ThrownError
                        (ValidationError.mk message (Some "array") (Some value)
                           (Some (Ctx.path ctx)) (Some (Ctx.key ctx))
                           (Some (Ctx.parent ctx)) (Some (Ctx.root ctx)))),
               ctx)).
Proof.
  intros validator msg ctx.
  assert (Hiff : forall items outs,
            array validator msg (VArr items) ctx = (Normal (VArr outs), ctx)
            <-> item_outputs ctx validator 0 items outs).
  { intros items outs. rewrite array_run, <- array_map_normal.
    destruct (fst (array_map validator items 0 ctx)) as [r|t].
    - split; [intros [= ->]; reflexivity | intros [= ->]; reflexivity].
    - split; discriminate. }
  split; [exact Hiff|]. split; [|split].
  - intros items r ctx' Hrun. pose proof Hrun as Hrun'.
    rewrite array_run in Hrun.
    destruct (fst (array_map validator items 0 ctx)) as [outs|t] eqn:Hmap;
      [|discriminate].
    injection Hrun as <- <-. split; [reflexivity|].
    exists outs. split; [reflexivity|].
    apply (item_outputs_length ctx validator 0). now apply array_map_normal.
  - reflexivity.
  - intros value Hno.
    destruct (array_not_array validator msg value ctx Hno) as [m Hm].
    exists m. exact Hm.
Qed.

(** The [map] of [array] over a guard stops at the first item of another
    type. *)
Lemma array_map_guard (type : str) (msg : option str) (ctx : Ctx.t)
  (items : list Value) :
  forall i : Z,
    match first_mismatch type i items with
    | None => fst (array_map (primitive type msg) items i ctx) = Normal items
    | Some (j, item) =>
        exists message,
          fst (array_map (primitive type msg) items i ctx)
          = Throw (ThrownError
                     (stamp type item (makeCtx (Some ctx) (KNum j) item)
                        (new_Error message)))
    end.
Proof.
  induction items as [|item rest IH]; intros i.
  - reflexivity.
  - cbn [first_mismatch array_map]. run.
    pose proof (primitive_run type msg item (makeCtx (Some ctx) (KNum i) item))
      as Hp.
    destruct (String.eqb (typeof item) type).
    + rewrite Hp. cbn [fst]. specialize (IH (i + 1)%Z).
      destruct (first_mismatch type (i + 1) rest) as [[j bad]|].
      * destruct IH as [m Hm]. exists m.
        destruct (array_map (primitive type msg) rest (i + 1) ctx) as [[o|t] c];
          cbn [fst] in *; [discriminate | exact Hm].
      * destruct (array_map (primitive type msg) rest (i + 1) ctx) as [[o|t] c];
          cbn [fst] in *; [|discriminate].
        injection IH as ->. reflexivity.
    + destruct Hp as [m ->]. exists m. reflexivity.
Qed.

(** X6 (an array of primitives).  [array] over a primitive guard returns
    a conforming array as it is.  Otherwise it fails on the first item, in
    index order, whose type is not the guard's: the error is the guard's,
    with the kind name of the type, that item as [actual], the path of the
    context followed by the bracketed index, the index as key, and the
    parent and root that the child context takes from the context of the
    call. *)
Theorem X6_array_of_guard :
  forall (type : str) (msg msg' : option str) (items : list Value)
         (ctx : Ctx.t),
    In type guard_types ->
    match first_mismatch type 0 items with
    | None =>
        array (primitive type msg) msg' (VArr items) ctx
        = (Normal (VArr items), ctx)
    | Some (i, item) =>
        exists message,
          array (primitive type msg) msg' (VArr items) ctx
          = (Throw (ThrownError
                      (ValidationError.mk message (Some type) (Some item)
                         (Some (Ctx.path ctx ++ "[" ++ Number_toString i ++ "]"))
                         (Some (KNum i)) (Some (Ctx.value ctx))
                         (Some (Ctx.root ctx)))),
             ctx)
    end.
Proof.
  intros type msg msg' items ctx Htype. rewrite array_run.
  pose proof (array_map_guard type msg ctx items 0) as Hmap.
  destruct (first_mismatch type 0 items) as [[i item]|].
  - destruct Hmap as [m ->]. exists m.
    rewrite rethrown_stamped; [reflexivity|].
    unfold stamped. cbn.
    repeat (destruct Htype as [<- | Htype]; [reflexivity|]). destruct Htype.
  - rewrite Hmap. reflexivity.
Qed.

Lemma X6_array_of_guard_witness :
  array (number None) None (VArr [VNum 1; VNum 2; VNum 3]) Sample.ctx1
  = (Normal (VArr [VNum 1; VNum 2; VNum 3]), Sample.ctx1)
  /\ exists message,
       array (number None) None (VArr [VNum 1; VStr "x"; VNull]) Sample.ctx1
       = (Throw (ThrownError
                   (ValidationError.mk message (Some "number") (Some (VStr "x"))
                      (Some "$[1]") (Some (KNum 1)) (Some (VNum 1))
                      (Some (VNum 1)))),
          Sample.ctx1).
Proof.
  split.
  - exact (X6_array_of_guard "number" None None [VNum 1; VNum 2; VNum 3]
             Sample.ctx1 (or_intror (or_introl eq_refl))).
  - exact (X6_array_of_guard "number" None None [VNum 1; VStr "x"; VNull]
             Sample.ctx1 (or_intror (or_introl eq_refl))).
Defined.

(** *** The abort flag and the structural validators *)

Lemma rethrown_flag (name : str) (value : Value) (t : Thrown)
  (p : str) (k : Key) (pa r v : Value) (f1 f2 : option bool) :
  rethrown name value (Ctx.mk p k pa r v f1) t
  = rethrown name value (Ctx.mk p k pa r v f2) t.
Proof. reflexivity. Qed.

Lemma throw_new_Error_flag {A : Type} (msg : option str) (value : Value)
  (name : str) (p : str) (k : Key) (pa r v : Value) (f1 f2 : option bool) :
  fst (@throw_new_Error A msg (default_message value name)
         (Ctx.mk p k pa r v f1))
  = fst (@throw_new_Error A msg (default_message value name)
           (Ctx.mk p k pa r v f2)).
Proof.
  unfold throw_new_Error, msg_or, default_message, bind, lift, ret, throw,
    this_ctx.
  destruct msg as [m|]; [destruct (truthy_str m)|];
    try reflexivity; destruct (formatValue value); reflexivity.
Qed.

Lemma object_loop_flag (shape : Shape) (value : Value)
  (p : str) (k : Key) (pa r v : Value) (f1 f2 : option bool) :
  forall result,
    fst (object_loop shape value result (Ctx.mk p k pa r v f1))
    = fst (object_loop shape value result (Ctx.mk p k pa r v f2)).
Proof.
  induction shape as [|[key validator] rest IH]; intros result.
  - reflexivity.
  - cbn [object_loop]. run.
    change (makeCtx (Some (Ctx.mk p k pa r v f1)) (KStr key)
              (Get value key))
      with (makeCtx (Some (Ctx.mk p k pa r v f2)) (KStr key)
              (Get value key)).
    destruct (validator _ _) as [[out|t] c]; cbn [fst]; [apply IH | reflexivity].
Qed.

Lemma array_map_flag (validator : Validator) (items : list Value)
  (p : str) (k : Key) (pa r v : Value) (f1 f2 : option bool) :
  forall i,
    fst (array_map validator items i (Ctx.mk p k pa r v f1))
    = fst (array_map validator items i (Ctx.mk p k pa r v f2)).
Proof.
  induction items as [|item rest IH]; intros i.
  - reflexivity.
  - cbn [array_map]. run.
    change (makeCtx (Some (Ctx.mk p k pa r v f1)) (KNum i) item)
      with (makeCtx (Some (Ctx.mk p k pa r v f2)) (KNum i) item).
    destruct (validator _ _) as [[out|t] c]; cbn [fst]; [|reflexivity].
    specialize (IH (i + 1)%Z).
    destruct (array_map validator rest (i + 1) (Ctx.mk p k pa r v f1))
      as [[o1|t1] c1],
      (array_map validator rest (i + 1) (Ctx.mk p k pa r v f2))
      as [[o2|t2] c2]; cbn [fst] in *; congruence.
Qed.

Lemma object_ctx (shape : Shape) (msg : option str) (value : Value)
  (ctx : Ctx.t) :
  snd (object shape msg value ctx) = ctx.
Proof.
  unfold object. rewrite createValidator_run.
  destruct (negb (String.eqb (typeof value) "object") || is_null value
            || isArray value).
  - destruct (@throw_new_Error_fresh Value msg value "object" ctx) as [m ->].
    reflexivity.
  - unfold bind, ret.
    pose proof (object_loop_ctx shape value [] ctx) as Hctx.
    destruct (object_loop shape value [] ctx) as [[r|t] c];
      cbn [fst snd] in *; subst c; reflexivity.
Qed.

Lemma array_ctx (validator : Validator) (msg : option str) (value : Value)
  (ctx : Ctx.t) :
  snd (array validator msg value ctx) = ctx.
Proof.
  unfold array. rewrite createValidator_run.
  destruct (negb (isArray value)).
  - destruct (@throw_new_Error_fresh Value msg value "array" ctx) as [m ->].
    reflexivity.
  - unfold bind, ret.
    pose proof (array_map_ctx validator (items_of value) 0 ctx) as Hctx.
    destruct (array_map validator (items_of value) 0 ctx) as [[r|t] c];
      cbn [fst snd] in *; subst c; reflexivity.
Qed.

(** X7 (the abort flag stops at [object] and [array]).  Whatever their
    members do, and whether they return or throw, [object] and [array]
    leave the context they were called with exactly as it was, abort flag
    included; and what they return or throw does not depend on that flag.
    Their members run on child contexts of their own, so an [optional()]
    inside a member can abort neither the pipe around the [object] or
    [array] nor a sibling member. *)
Theorem X7_structural_validators_and_flag :
  forall (shape : Shape) (validator : Validator) (msg : option str)
         (value : Value),
    (forall ctx,
       snd (object shape msg value ctx) = ctx
       /\ snd (array validator msg value ctx) = ctx)
    /\ (forall (p : str) (k : Key) (pa r v : Value) (f1 f2 : option bool),
          fst (object shape msg value (Ctx.mk p k pa r v f1))
          = fst (object shape msg value (Ctx.mk p k pa r v f2))
          /\ fst (array validator msg value (Ctx.mk p k pa r v f1))
             = fst (array validator msg value (Ctx.mk p k pa r v f2))).
Proof.
  intros shape validator msg value. split.
  - intros ctx. split; [apply object_ctx | apply array_ctx].
  - intros p k pa r v f1 f2. split.
    + unfold object. rewrite !createValidator_run.
      destruct (negb (String.eqb (typeof value) "object") || is_null value
                || isArray value).
      * pose proof (@throw_new_Error_flag Value msg value "object"
                      p k pa r v f1 f2) as Hsame.
        destruct (@throw_new_Error_fresh Value msg value "object"
                    (Ctx.mk p k pa r v f1)) as [m1 H1].
        destruct (@throw_new_Error_fresh Value msg value "object"
                    (Ctx.mk p k pa r v f2)) as [m2 H2].
        rewrite H1, H2 in Hsame |- *. cbn [fst] in *.
        injection Hsame as ->. reflexivity.
      * unfold bind, ret.
        pose proof (object_loop_flag shape value p k pa r v f1 f2 []) as Hsame.
        pose proof (object_loop_ctx shape value [] (Ctx.mk p k pa r v f1)) as Hc1.
        pose proof (object_loop_ctx shape value [] (Ctx.mk p k pa r v f2)) as Hc2.
        destruct (object_loop shape value [] (Ctx.mk p k pa r v f1))
          as [[r1|t1] c1],
          (object_loop shape value [] (Ctx.mk p k pa r v f2))
          as [[r2|t2] c2]; cbn [fst snd] in *; subst; try discriminate.
        -- now injection Hsame as ->.
        -- injection Hsame as ->. reflexivity.
    + unfold array. rewrite !createValidator_run.
      destruct (negb (isArray value)).
      * pose proof (@throw_new_Error_flag Value msg value "array"
                      p k pa r v f1 f2) as Hsame.
        destruct (@throw_new_Error_fresh Value msg value "array"
                    (Ctx.mk p k pa r v f1)) as [m1 H1].
        destruct (@throw_new_Error_fresh Value msg value "array"
                    (Ctx.mk p k pa r v f2)) as [m2 H2].
        rewrite H1, H2 in Hsame |- *. cbn [fst] in *.
        injection Hsame as ->. reflexivity.
      * unfold bind, ret.
        pose proof (array_map_flag validator (items_of value) p k pa r v f1 f2 0)
          as Hsame.
        pose proof (array_map_ctx validator (items_of value) 0
                      (Ctx.mk p k pa r v f1)) as Hc1.
        pose proof (array_map_ctx validator (items_of value) 0
                      (Ctx.mk p k pa r v f2)) as Hc2.
        destruct (array_map validator (items_of value) 0 (Ctx.mk p k pa r v f1))
          as [[r1|t1] c1],
          (array_map validator (items_of value) 0 (Ctx.mk p k pa r v f2))
          as [[r2|t2] c2]; cbn [fst snd] in *; subst; try discriminate.
        -- now injection Hsame as ->.
        -- injection Hsame as ->. reflexivity.
Qed.

(** *** Schemas of guards, [required], [object] and [array] *)

Lemma GetProp_In (props : list (str * Value)) (key : str) (v : Value) :
  NoDup (map fst props) -> In (key, v) props -> GetProp props key = v.
Proof.
  induction props as [|[k w] rest IH]; intros Hnodup Hin; [destruct Hin|].
  cbn [map fst] in Hnodup. inversion Hnodup as [|? ? Hnotin Hnodup']; subst.
  cbn [GetProp]. destruct Hin as [[= -> ->] | Hin].
  - now rewrite String.eqb_refl.
  - destruct (String.eqb_spec k key) as [->|Hne].
    + elim Hnotin. apply in_map_iff. exists (key, v). split; [reflexivity | exact Hin].
    + now apply IH.
Qed.

Lemma Forall2_impl_In {A B : Type} (P Q : A -> B -> Prop)
  (l1 : list A) (l2 : list B) :
  Forall2 P l1 l2 ->
  (forall a b, In a l1 -> In b l2 -> P a b -> Q a b) ->
  Forall2 Q l1 l2.
Proof.
  induction 1 as [|a b l1 l2 Hab _ IH]; intros Himpl; constructor.
  - apply Himpl; [now left | now left | exact Hab].
  - apply IH. intros a' b' Ha Hb. apply Himpl; now right.
Qed.

Lemma object_not_object (shape : Shape) (msg : option str) (value : Value)
  (ctx : Ctx.t) :
  fails_object_check value = true ->
  exists message,
    object shape msg value ctx
    = (Throw (ThrownError (stamp "object" value ctx (new_Error message))), ctx).
Proof.
  intros Hguard. unfold object. rewrite createValidator_run.
  fold (fails_object_check value). rewrite Hguard.
  destruct (@throw_new_Error_fresh Value msg value "object" ctx) as [m ->].
  exists m. reflexivity.
Qed.

Lemma starts_with_refl (s : str) : starts_with s s.
Proof. exists EmptyString. now rewrite append_nil_r. Qed.

Lemma starts_with_app (a b s : str) :
  starts_with (a ++ b) s -> starts_with a s.
Proof. intros [suffix ->]. exists (b ++ suffix). apply append_assoc. Qed.

(** What a structural validator returns, it returns again, on any
    context, when it is given its own output; the context is untouched. *)
Lemma rebuilding_idempotent (v : Validator) :
  Rebuilding v ->
  forall value ctx r ctx1,
    v value ctx = (Normal r, ctx1) ->
    ctx1 = ctx /\ forall ctx2, v r ctx2 = (Normal r, ctx2).
Proof.
  induction 1 as [type msg Htype | msg | shape msg Hnodup Hproto Hmembers IH
                 | v msg Hv IH];
    intros value ctx r ctx1 Hrun.
  - pose proof (primitive_run type msg value ctx) as Hp.
    destruct (String.eqb (typeof value) type) eqn:Heq.
    + rewrite Hp in Hrun. injection Hrun as <- <-. split; [reflexivity|].
      intros ctx2. pose proof (primitive_run type msg value ctx2) as Hp2.
      now rewrite Heq in Hp2.
    + destruct Hp as [m Hm]. rewrite Hm in Hrun. discriminate.
  - pose proof (required_run msg value ctx) as Hp.
    destruct (eq_null value) eqn:Heq.
    + destruct Hp as [m Hm]. rewrite Hm in Hrun. discriminate.
    + rewrite Hp in Hrun. injection Hrun as <- <-. split; [reflexivity|].
      intros ctx2. pose proof (required_run msg value ctx2) as Hp2.
      now rewrite Heq in Hp2.
  - assert (Hobj : fails_object_check value = false).
    { destruct (fails_object_check value) eqn:Hcheck; [|reflexivity].
      destruct (object_not_object shape msg value ctx Hcheck) as [m Hm].
      rewrite Hm in Hrun. discriminate. }
    rewrite object_run in Hrun by exact Hobj.
    destruct (fst (object_loop shape value [] ctx)) as [outs|t] eqn:Hloop;
      [|discriminate].
    injection Hrun as <- <-. split; [reflexivity|].
    intros ctx2. rewrite object_run by reflexivity.
    pose proof (proj1 (object_loop_normal shape value ctx [] outs Hnodup Hproto
                         (fun k _ H => H)) Hloop) as (news & Heq & HF).
    cbn [app] in Heq. subst news.
    pose proof (Forall2_member_output_keys ctx value shape outs HF) as Hkeys.
    assert (HF2 : Forall2 (member_output ctx2 (VObj outs)) shape outs).
    { apply (Forall2_impl_In (member_output ctx value)); [exact HF|].
      intros [key w] [key' out] Hin Hin' [Hkey Hcall].
      cbn [fst snd] in Hkey, Hcall. subst key'.
      split; [reflexivity|]. cbn [fst snd]. unfold member_call in *.
      cbn [Get].
      rewrite (GetProp_In outs key out) by (rewrite ?Hkeys; assumption).
      destruct (w (Get value key) _) as [res c] eqn:Hw.
      cbn [fst] in Hcall. subst res.
      destruct (IH key w Hin _ _ _ _ Hw) as [_ Hagain].
      now rewrite Hagain. }
    rewrite (proj2 (object_loop_normal shape (VObj outs) ctx2 [] outs Hnodup
                      Hproto (fun k _ H => H))
               (ex_intro _ outs (conj eq_refl HF2))).
    reflexivity.
  - assert (Harr : exists items, value = VArr items).
    { destruct value; try (eexists; reflexivity);
        match goal with
        | _ : array v msg ?x ctx = _ |- _ =>
            destruct (array_not_array v msg x ctx eq_refl) as [m Hm]
        end; rewrite Hm in Hrun; discriminate. }
    destruct Harr as [items ->]. rewrite array_run in Hrun.
    destruct (fst (array_map v items 0 ctx)) as [outs|t] eqn:Hmap;
      [|discriminate].
    injection Hrun as <- <-. split; [reflexivity|].
    intros ctx2. rewrite array_run.
    apply array_map_normal in Hmap.
    assert (Hagain : forall i', item_outputs ctx2 v i' outs outs).
    { clear - Hmap IH. induction Hmap as [i | i item items out outs Hcall _ IHo];
        intros i'; constructor.
      - unfold item_call in *.
        destruct (v item _) as [res c] eqn:Hv. cbn [fst] in Hcall. subst res.
        destruct (IH _ _ _ _ Hv) as [_ Hre]. now rewrite Hre.
      - apply IHo. }
    rewrite (proj2 (array_map_normal v ctx2 outs 0 outs) (Hagain 0%Z)).
    reflexivity.
Qed.

(** A failure of a structural validator is a stamped error located under
    the context of the call; the context is untouched. *)
Lemma structural_failure_located (v : Validator) :
  Structural v ->
  forall value ctx t ctx',
    v value ctx = (Throw t, ctx') ->
    ctx' = ctx
    /\ exists e p,
         t = ThrownError e
         /\ stamped e
         /\ ValidationError.path e = Some p
         /\ starts_with (Ctx.path ctx) p
         /\ ValidationError.root e = Some (Ctx.root ctx).
Proof.
  induction 1 as [type msg Htype | msg | shape msg Hnodup Hmembers IH
                 | v msg Hv IH];
    intros value ctx t ctx' Hrun.
  - pose proof (primitive_run type msg value ctx) as Hp.
    destruct (String.eqb (typeof value) type).
    + rewrite Hp in Hrun. discriminate.
    + destruct Hp as [m Hm]. rewrite Hm in Hrun. injection Hrun as <- <-.
      split; [reflexivity|]. eexists _, _. split; [reflexivity|].
      split; [|split; [reflexivity|split; [apply starts_with_refl|reflexivity]]].
      unfold stamped. cbn.
      repeat (destruct Htype as [<- | Htype]; [reflexivity|]). destruct Htype.
  - pose proof (required_run msg value ctx) as Hp.
    destruct (eq_null value).
    + destruct Hp as [m Hm]. rewrite Hm in Hrun. injection Hrun as <- <-.
      split; [reflexivity|]. eexists _, _. split; [reflexivity|].
      split; [reflexivity|].
      split; [reflexivity|split; [apply starts_with_refl|reflexivity]].
    + rewrite Hp in Hrun. discriminate.
  - pose proof (object_ctx shape msg value ctx) as Hctx.
    rewrite Hrun in Hctx. cbn [snd] in Hctx. subst ctx'.
    split; [reflexivity|].
    destruct (object_keeps_stamp _ _ _ _ _ _ Hrun)
      as [Hno | (_ & i & key & w & t0 & Hnth & _ & Hcall & Hkeep)].
    + destruct (object_not_object shape msg value ctx Hno) as [m Hm].
      rewrite Hm in Hrun. injection Hrun as <-.
      eexists _, _. split; [reflexivity|]. split; [reflexivity|].
      split; [reflexivity|split; [apply starts_with_refl|reflexivity]].
    + pose proof (nth_error_In _ _ Hnth) as Hin.
      unfold member_call in Hcall.
      destruct (w _ _) as [res c] eqn:Hw. cbn [fst] in Hcall. subst res.
      destruct (IH key w Hin _ _ _ _ Hw)
        as (_ & e & p & -> & Hs & Hpath & Hstart & Hroot).
      exists e, p. split; [now apply Hkeep|]. split; [exact Hs|].
      split; [exact Hpath|]. split; [|exact Hroot].
      cbn in Hstart. now apply starts_with_app in Hstart.
  - pose proof (array_ctx v msg value ctx) as Hctx.
    rewrite Hrun in Hctx. cbn [snd] in Hctx. subst ctx'.
    split; [reflexivity|].
    destruct (array_keeps_stamp _ _ _ _ _ _ Hrun)
      as [Hnot | (items & j & item & t0 & -> & Hnth & _ & Hcall & Hkeep)].
    + destruct (array_not_array v msg value ctx Hnot) as [m Hm].
      rewrite Hm in Hrun. injection Hrun as <-.
      eexists _, _. split; [reflexivity|]. split; [reflexivity|].
      split; [reflexivity|split; [apply starts_with_refl|reflexivity]].
    + unfold item_call in Hcall.
      destruct (v _ _) as [res c] eqn:Hw. cbn [fst] in Hcall. subst res.
      destruct (IH _ _ _ _ Hw)
        as (_ & e & p & -> & Hs & Hpath & Hstart & Hroot).
      exists e, p. split; [now apply Hkeep|]. split; [exact Hs|].
      split; [exact Hpath|]. split; [|exact Hroot].
      cbn in Hstart. now apply starts_with_app in Hstart.
Qed.

Lemma user_schema_rebuilding : Rebuilding Sample.user_schema.
Proof.
  assert (Hguard : forall type, In type guard_types ->
                     Rebuilding (primitive type None))
    by (intros type H; now constructor).
  assert (Hname : Rebuilding (string None)) by (apply Hguard; cbn; tauto).
  assert (Hage : Rebuilding (number None)) by (apply Hguard; cbn; tauto).
  unfold Sample.user_schema. constructor.
  - cbn. constructor; [intros [] | constructor].
  - cbn. intros [H | []]. discriminate H.
  - intros key v [[= <- <-] | []]. unfold Sample.user_shape. constructor.
    + cbn. constructor.
      * intros [H | []]. discriminate H.
      * constructor; [intros [] | constructor].
    + cbn. intros [H | [H | []]]; discriminate H.
    + intros key v [[= <- <-] | [[= <- <-] | []]]; assumption.
Qed.

Lemma user_schema_structural : Structural Sample.user_schema.
Proof.
  assert (Hguard : forall type, In type guard_types ->
                     Structural (primitive type None))
    by (intros type H; now constructor).
  assert (Hname : Structural (string None)) by (apply Hguard; cbn; tauto).
  assert (Hage : Structural (number None)) by (apply Hguard; cbn; tauto).
  unfold Sample.user_schema. constructor.
  - cbn. constructor; [intros [] | constructor].
  - intros key v [[= <- <-] | []]. unfold Sample.user_shape. constructor.
    + cbn. constructor.
      * intros [H | []]. discriminate H.
      * constructor; [intros [] | constructor].
    + intros key v [[= <- <-] | [[= <- <-] | []]]; assumption.
Qed.

(** X8 (validated output is a fixed point).  For a validator made of the
    primitive guards, [required], [object] (with distinct keys, none of
    them [__proto__]) and [array]: whatever it returns on a value is
    returned again, unchanged, when the validator is run on that output,
    on any context; and the call leaves its context untouched.  So
    [validate] of such a schema on the result of a successful [validate]
    is valid with the same result, under any root path. *)
Theorem X8_structural_output_is_fixed_point :
  forall v : Validator,
    Rebuilding v ->
    (forall value ctx r ctx1,
       v value ctx = (Normal r, ctx1) ->
       ctx1 = ctx /\ forall ctx2, v r ctx2 = (Normal r, ctx2))
    /\ (forall value rootPath r,
          validate v value rootPath = Valid r ->
          forall rootPath', validate v r rootPath' = Valid r).
Proof.
  intros v Hv. split.
  - apply rebuilding_idempotent. exact Hv.
  - intros value rootPath r Hvalid rootPath'. unfold validate in *.
    destruct (v value _) as [[res|t] c] eqn:Hrun; [|discriminate].
    injection Hvalid as ->.
    destruct (rebuilding_idempotent v Hv _ _ _ _ Hrun) as [_ Hagain].
    now rewrite Hagain.
Qed.

Lemma X8_structural_output_is_fixed_point_witness :
  validate Sample.user_schema
    (VObj [("user", VObj [("name", VStr "nana"); ("extra", VBool true);
                          ("age", VNum 20)]);
           ("more", VNull)])
    None
  = Valid (VObj [("user", VObj [("name", VStr "nana"); ("age", VNum 20)])])
  /\ validate Sample.user_schema
       (VObj [("user", VObj [("name", VStr "nana"); ("age", VNum 20)])])
       (Some "body")
     = Valid (VObj [("user", VObj [("name", VStr "nana"); ("age", VNum 20)])]).
Proof.
  split; [reflexivity|].
  exact (proj2 (X8_structural_output_is_fixed_point Sample.user_schema
                  user_schema_rebuilding)
           (VObj [("user", VObj [("name", VStr "nana"); ("extra", VBool true);
                                 ("age", VNum 20)]);
                  ("more", VNull)])
           None _ eq_refl (Some "body")).
Defined.

(** X9 (failures are located under the call).  For a validator made of
    the primitive guards, [required], [object] and [array]: every failure
    is an error that carries a non-empty kind name, a path that starts with
    the path of the context of the call, and the root of that context; the
    context is left untouched.  So a failed [validate] of such a schema
    hands back the input together with an error whose root is the input and
    whose path starts with the root path ([$] when none is given). *)
Theorem X9_structural_failure_is_located :
  forall v : Validator,
    Structural v ->
    (forall value ctx t ctx',
       v value ctx = (Throw t, ctx') ->
       ctx' = ctx
       /\ exists e p,
            t = ThrownError e
            /\ stamped e
            /\ ValidationError.path e = Some p
            /\ starts_with (Ctx.path ctx) p
            /\ ValidationError.root e = Some (Ctx.root ctx))
    /\ (forall value rootPath t original,
          validate v value rootPath = Invalid t original ->
          original = value
          /\ exists e p,
               t = ThrownError e
               /\ stamped e
               /\ ValidationError.path e = Some p
               /\ starts_with (match rootPath with Some r => r | None => "$" end) p
               /\ ValidationError.root e = Some value).
Proof.
  intros v Hv. split.
  - apply structural_failure_located. exact Hv.
  - intros value rootPath t original Hinvalid. unfold validate in Hinvalid.
    destruct (v value _) as [[res|t0] c] eqn:Hrun; [discriminate|].
    injection Hinvalid as <- <-. split; [reflexivity|].
    destruct (structural_failure_located v Hv _ _ _ _ Hrun)
      as (_ & e & p & -> & Hs & Hpath & Hstart & Hroot).
    exists e, p. repeat split; assumption.
Qed.

Lemma X9_structural_failure_is_located_witness :
  exists e p,
    validate Sample.user_schema Sample.bad_user (Some "body")
    = Invalid (ThrownError e) Sample.bad_user
    /\ ValidationError.path e = Some p
    /\ starts_with "body" p
    /\ ValidationError.root e = Some Sample.bad_user.
Proof.
  destruct (proj2 (X9_structural_failure_is_located Sample.user_schema
                     user_schema_structural)
              Sample.bad_user (Some "body") _ _ eq_refl)
    as (_ & e & p & Heq & _ & Hpath & Hstart & Hroot).
  exists e, p. split; [|split; [exact Hpath|split; [exact Hstart|exact Hroot]]].
  injection Heq as <-. reflexivity.
Defined.

(** *** The two builds of pipe *)

(** Over steps that never leave the flag set, the loop of [pipe] started
    with the flag unset is the plain chaining, and ends with the flag
    unset. *)
Lemma pipe_loop_is_reduce (validators : list Validator) :
  (forall v, In v validators -> keeps_flag_unset v) ->
  forall value ctx,
    truthy_flag (Ctx.__abortPipe ctx) = false ->
    pipe_loop validators value ctx = IndexJs.reduce validators value ctx
    /\ truthy_flag (Ctx.__abortPipe (snd (pipe_loop validators value ctx)))
       = false.
Proof.
  induction validators as [|v rest IH]; intros Hkeep value ctx Hflag.
  - split; [reflexivity | exact Hflag].
  - rewrite pipe_loop_step by exact Hflag. cbn [IndexJs.reduce]. unfold bind.
    pose proof (Hkeep v (or_introl eq_refl) value ctx Hflag) as Hafter.
    destruct (v value ctx) as [[value'|t] ctx']; cbn [snd] in Hafter.
    + apply IH; [|exact Hafter]. intros w Hw. apply Hkeep. now right.
    + split; [reflexivity | exact Hafter].
Qed.

(** X10 (the pipe of index.js and the pipe of the TypeScript source).
    The primitive guards, [required], [object] and [array] (over any
    members) never leave the abort flag set on a context that had it
    unset, and neither does a [pipe] of steps that do not.  Over such
    steps, and started with the flag unset, the two pipes do the same: the
    reduce-based [pipe] of index.js returns or throws exactly what the
    flag-aware [pipe] does (which in addition deletes the flag when it
    returns).  The two differ only once a step, such as [optional()],
    sets the flag. *)
Theorem X10_pipe_agrees_with_reduce :
  (forall type msg, keeps_flag_unset (primitive type msg))
  /\ (forall msg, keeps_flag_unset (required msg))
  /\ (forall shape msg, keeps_flag_unset (object shape msg))
  /\ (forall v msg, keeps_flag_unset (array v msg))
  /\ (forall validators,
        (forall v, In v validators -> keeps_flag_unset v) ->
        keeps_flag_unset (pipe validators))
  /\ (forall validators value ctx,
        (forall v, In v validators -> keeps_flag_unset v) ->
        truthy_flag (Ctx.__abortPipe ctx) = false ->
        match IndexJs.pipe validators value ctx with
        | (Normal r, c) =>
            pipe validators value ctx = (Normal r, Ctx.delete_abortPipe c)
        | (Throw t, c) => pipe validators value ctx = (Throw t, c)
        end)
  /\ (fst (pipe [optional tt; string None] VNull Sample.ctx1) = Normal VNull
      /\ exists e,
           fst (IndexJs.pipe [optional tt; string None] VNull Sample.ctx1)
           = Throw (ThrownError e)).
Proof.
  split; [|split; [|split; [|split; [|split; [|split]]]]].
  - intros type msg value ctx Hflag.
    pose proof (primitive_run type msg value ctx) as Hp.
    destruct (String.eqb (typeof value) type);
      [rewrite Hp | destruct Hp as [m ->]]; exact Hflag.
  - intros msg value ctx Hflag.
    pose proof (required_run msg value ctx) as Hp.
    destruct (eq_null value);
      [destruct Hp as [m ->] | rewrite Hp]; exact Hflag.
  - intros shape msg value ctx Hflag. now rewrite object_ctx.
  - intros v msg value ctx Hflag. now rewrite array_ctx.
  - intros validators Hkeep value ctx Hflag. rewrite pipe_run.
    destruct (pipe_loop_is_reduce validators Hkeep value ctx Hflag)
      as [_ Hend].
    destruct (pipe_loop validators value ctx) as [[r|t] c]; cbn [snd] in *;
      [reflexivity | exact Hend].
  - intros validators value ctx Hkeep Hflag.
    unfold IndexJs.pipe. rewrite createValidator_run, pipe_run.
    destruct (pipe_loop_is_reduce validators Hkeep value ctx Hflag)
      as [-> _].
    destruct (IndexJs.reduce validators value ctx) as [[r|t] c]; reflexivity.
  - split; [reflexivity | eexists; reflexivity].
Qed.

Lemma X10_pipe_agrees_with_reduce_witness :
  pipe [number None; required None] (VNum 3) Sample.ctx1
  = (Normal (VNum 3), Ctx.delete_abortPipe Sample.ctx1).
Proof.
  destruct X10_pipe_agrees_with_reduce
    as (Hguard & Hrequired & _ & _ & _ & Hagree & _).
  refine (Hagree [number None; required None] (VNum 3) Sample.ctx1 _ eq_refl).
  intros v [<- | [<- | []]]; [apply Hguard | apply Hrequired].
Defined.

(** *** formatValue and the default messages *)

(** Induction on values that goes through the members of arrays and
    objects. *)
Section ValueInduction.

Variable P : Value -> Prop.
Hypothesis P_undefined : P VUndefined.
Hypothesis P_null : P VNull.
Hypothesis P_bool : forall b, P (VBool b).
Hypothesis P_num : forall n, P (VNum n).
Hypothesis P_bigint : forall n, P (VBigInt n).
Hypothesis P_str : forall s, P (VStr s).
Hypothesis P_symbol : forall d, P (VSymbol d).
Hypothesis P_func : forall name source, P (VFunc name source).
Hypothesis P_arr : forall items, Forall P items -> P (VArr items).
Hypothesis P_obj :
  forall props, Forall (fun p => P (snd p)) props -> P (VObj props).
Hypothesis P_prototype : P VObjectPrototype.


End ValueInduction.




(** The error of [throw new Error(msg || template)] once the wrapper of
    a validator of that name has stamped it. *)
Lemma throw_new_Error_message {A : Type} (msg : option str) (value : Value)
  (name : str) (ctx : Ctx.t) :
  @throw_new_Error A msg (default_message value name) ctx
  = (Throw (ThrownError
              (new_Error (failure_message msg value name (Ctx.path ctx)))),
     ctx).
Proof.
  unfold throw_new_Error, failure_message, msg_or, default_message, bind,
    lift, ret, throw, this_ctx.
  destruct msg as [m|]; [destruct (truthy_str m)|];
    try reflexivity;
    destruct (formatValue value) as [text|t] eqn:Hf; try reflexivity;
    rewrite (formatValue_throw_bigint _ _ Hf); reflexivity.
Qed.

(** X12 (the messages of the library's failures).  The failure of a
    primitive guard on a value of another type, of [required] on null or
    undefined, of [object] on what fails its structure check (every value
    that is not an object, null, arrays) and of [array] on what is not an
    array is one and the same error up to the validator's
    name: stamped with that name, the value and the location of the
    context, and with the caller's message when that is not empty, else the
    default message [(path: rendering) ✖ name], else, for a value that
    [formatValue] cannot render, the message of the formatter's
    TypeError. *)
Theorem X12_failure_messages :
  forall (msg : option str) (value : Value) (ctx : Ctx.t),
    (forall type,
       typeof value <> type ->
       primitive type msg value ctx = (Throw (own_failure msg value type ctx), ctx))
    /\ (eq_null value = true ->
        required msg value ctx
        = (Throw (own_failure msg value "required" ctx), ctx))
    /\ (forall shape,
          fails_object_check value = true ->
          object shape msg value ctx
          = (Throw (own_failure msg value "object" ctx), ctx))
    /\ (forall validator,
          isArray value = false ->
          array validator msg value ctx
          = (Throw (own_failure msg value "array" ctx), ctx)).
Proof.
  intros msg value ctx. split; [|split; [|split]].
  - intros type Hne. unfold primitive. rewrite createValidator_run.
    unfold primitive_handler.
    destruct (String.eqb_spec (typeof value) type) as [Heq|_]; [contradiction|].
    cbn [negb]. rewrite throw_new_Error_message. reflexivity.
  - intros Hnull. unfold required. rewrite createValidator_run, Hnull.
    rewrite throw_new_Error_message. reflexivity.
  - intros shape Hguard. unfold object. rewrite createValidator_run.
    fold (fails_object_check value).
    rewrite Hguard, throw_new_Error_message. reflexivity.
  - intros validator Hno. unfold array. rewrite createValidator_run, Hno.
    cbn [negb]. rewrite throw_new_Error_message. reflexivity.
Qed.

(** *** Pipes of transforms and of checks *)

Lemma transform_pure (name : str) (f : Value -> Value) (value : Value)
  (ctx : Ctx.t) :
  transform (pure_fn name f) value ctx = (Normal (f value), ctx).
Proof. reflexivity. Qed.

Lemma pipe_loop_transforms (fs : list (Value -> Value)) :
  forall value ctx,
    truthy_flag (Ctx.__abortPipe ctx) = false ->
    pipe_loop (map (fun f => transform (pure_fn EmptyString f)) fs) value ctx
    = (Normal (fold_left (fun v f => f v) fs value), ctx).
Proof.
  induction fs as [|f rest IH]; intros value ctx Hflag.
  - reflexivity.
  - cbn [map fold_left]. rewrite pipe_loop_step by exact Hflag.
    rewrite transform_pure. now apply IH.
Qed.

(** X13 (a pipe of transforms).  A pipe of transforms by functions that
    neither throw nor touch the context is the composition of the
    functions, left to right, whatever the values in between (null and
    undefined included: a transform never aborts the pipe); [validate]
    returns that composition.  Only an abort flag that is already set on
    the context makes the pipe return its input without running them. *)
Theorem X13_pipe_of_transforms :
  forall (fs : list (Value -> Value)) (value : Value),
    (forall ctx,
       pipe (map (fun f => transform (pure_fn EmptyString f)) fs) value ctx
       = (Normal (if truthy_flag (Ctx.__abortPipe ctx) then value
                  else fold_left (fun v f => f v) fs value),
          Ctx.delete_abortPipe ctx))
    /\ (forall rootPath,
          validate (pipe (map (fun f => transform (pure_fn EmptyString f)) fs))
            value rootPath
          = Valid (fold_left (fun v f => f v) fs value)).
Proof.
  intros fs value.
  assert (Hpipe : forall ctx,
            pipe (map (fun f => transform (pure_fn EmptyString f)) fs) value ctx
            = (Normal (if truthy_flag (Ctx.__abortPipe ctx) then value
                       else fold_left (fun v f => f v) fs value),
               Ctx.delete_abortPipe ctx)).
  { intros ctx. rewrite pipe_run.
    destruct (truthy_flag (Ctx.__abortPipe ctx)) eqn:Hflag.
    - now rewrite pipe_loop_flag_set.
    - now rewrite pipe_loop_transforms. }
  split; [exact Hpipe|].
  intros rootPath. unfold validate. rewrite Hpipe. reflexivity.
Qed.

(** A check by a pure predicate. *)
Lemma check_predicate (name : str) (p : Value -> bool) (msg : option str)
  (value : Value) (ctx : Ctx.t) :
  let kind := if truthy_str name then name else "check" in
  check (predicate name p) msg value ctx
  = if p value then (Normal value, ctx)
    else (Throw (own_failure msg value kind ctx), ctx).
Proof.
  cbn zeta. pose proof (check_run (predicate name p) msg value ctx) as Hrun.
  cbn zeta in Hrun. cbn [Fn.name Fn.call predicate] in Hrun.
  unfold ret at 1 in Hrun. rewrite Hrun. clear Hrun.
  destruct (p value); [reflexivity|]. cbn [is_true].
  unfold own_failure, failure_message, msg_or, default_message, bind, lift,
    ret, this_ctx.
  destruct msg as [m|]; [destruct (truthy_str m)|];
    try reflexivity;
    destruct (formatValue value) as [text|t] eqn:Hf; try reflexivity;
    rewrite (formatValue_throw_bigint _ _ Hf); reflexivity.
Qed.

Lemma kind_truthy (name : str) :
  truthy_str (if truthy_str name then name else "check") = true.
Proof. destruct (truthy_str name) eqn:H; [exact H | reflexivity]. Qed.

Lemma pipe_loop_checks (preds : list (str * (Value -> bool))) (value : Value)
  (ctx : Ctx.t) :
  truthy_flag (Ctx.__abortPipe ctx) = false ->
  pipe_loop (map (fun np => check (predicate (fst np) (snd np)) None) preds)
    value ctx
  = match find (fun np => negb (snd np value)) preds with
    | None => (Normal value, ctx)
    | Some np =>
        (Throw (own_failure None value
                  (if truthy_str (fst np) then fst np else "check") ctx),
         ctx)
    end.
Proof.
  intros Hflag. induction preds as [|[name p] rest IH].
  - reflexivity.
  - cbn [map find fst snd]. rewrite pipe_loop_step by exact Hflag.
    pose proof (check_predicate name p None value ctx) as Hc.
    cbn zeta in Hc. rewrite Hc.
    destruct (p value); cbn [negb]; [exact IH | reflexivity].
Qed.

(** X14 (a pipe of checks).  A pipe of checks by predicates that neither
    throw nor touch the context validates a value exactly when every
    predicate returns true on it, and returns it unchanged.  Otherwise the
    failure is that of the first predicate, in order, that does not: the
    error carries that predicate's name ([check] for an anonymous one) as
    kind name, the value, the root location and the message of the
    library's own failures ([failure_message] with no caller's message):
    the default message [(path: rendering) ✖ name], or, on a value that
    [formatValue] cannot render (an array or object that holds a bigint),
    the message of the formatter's TypeError; the predicates after it are
    not consulted. *)
Theorem X14_pipe_of_checks :
  forall (preds : list (str * (Value -> bool))) (value : Value)
         (rootPath : option str),
    let schema :=
      pipe (map (fun np => check (predicate (fst np) (snd np)) None) preds) in
    let ctx :=
      Ctx.mk (match rootPath with Some p => p | None => "$" end)
        KNull VNull value value None in
    (validate schema value rootPath = Valid value
     <-> forallb (fun np => snd np value) preds = true)
    /\ match find (fun np => negb (snd np value)) preds with
       | None => validate schema value rootPath = Valid value
       | Some np =>
           validate schema value rootPath
           = Invalid
               (own_failure None value
                  (if truthy_str (fst np) then fst np else "check") ctx)
               value
       end.
Proof.
  intros preds value rootPath schema ctx.
  assert (Hrun : schema value ctx
                 = match find (fun np => negb (snd np value)) preds with
                   | None => (Normal value, Ctx.delete_abortPipe ctx)
                   | Some np =>
                       (Throw (own_failure None value
                                 (if truthy_str (fst np) then fst np
                                  else "check") ctx),
                        ctx)
                   end).
  { unfold schema. rewrite pipe_run, pipe_loop_checks by reflexivity.
    destruct (find (fun np => negb (snd np value)) preds) as [np|];
      [|reflexivity].
    unfold own_failure at 1. rewrite rethrown_stamped; [reflexivity|].
    unfold stamped. cbn. apply kind_truthy. }
  assert (Hvalidate : validate schema value rootPath
                      = match schema value ctx with
                        | (Normal result, _) => Valid result
                        | (Throw error, _) => Invalid error value
                        end) by reflexivity.
  rewrite Hvalidate, Hrun.
  assert (Hfind : find (fun np => negb (snd np value)) preds = None
                  <-> forallb (fun np => snd np value) preds = true).
  { clear. induction preds as [|[name p] rest IH]; [cbn; tauto|].
    cbn [find forallb fst snd]. destruct (p value); cbn [negb andb].
    - exact IH.
    - split; discriminate. }
  split.
  - rewrite <- Hfind.
    destruct (find (fun np => negb (snd np value)) preds) as [np|];
      split; intros H; try discriminate; reflexivity.
  - destruct (find (fun np => negb (snd np value)) preds); reflexivity.
Qed.

(** *** Missing members, and what a validator can throw *)

(** A key that neither the object nor [Object.prototype] has reads as
    [undefined]; a key that only [Object.prototype] has reads as the
    member found there. *)
Lemma GetProp_missing (props : list (str * Value)) (key : str) :
  ~ In key (map fst props) ->
  on_Object_prototype key = false ->
  GetProp props key = VUndefined.
Proof.
  unfold on_Object_prototype.
  induction props as [|[k v] rest IH]; intros Hno Hproto.
  - cbn [GetProp]. destruct (Object_prototype_member key); [discriminate|].
    now rewrite Hproto.
  - cbn [GetProp]. destruct (String.eqb_spec k key) as [->|Hne].
    + elim Hno. now left.
    + apply IH; [|exact Hproto]. intros Hin. apply Hno. now right.
Qed.

Lemma GetProp_inherited (props : list (str * Value)) (key : str)
  (member : Value) :
  ~ In key (map fst props) ->
  Object_prototype_member key = Some member ->
  GetProp props key = member.
Proof.
  induction props as [|[k v] rest IH]; intros Hno Hmember.
  - cbn [GetProp]. now rewrite Hmember.
  - cbn [GetProp]. destruct (String.eqb_spec k key) as [->|Hne].
    + elim Hno. now left.
    + apply IH; [|exact Hmember]. intros Hin. apply Hno. now right.
Qed.

Lemma pipe_optional_absent (rest : list Validator) (value : Value)
  (ctx : Ctx.t) :
  eq_null value = true ->
  pipe (optional tt :: rest) value ctx = (Normal value, Ctx.delete_abortPipe ctx).
Proof.
  intros Hnull. rewrite pipe_run.
  destruct (truthy_flag (Ctx.__abortPipe ctx)) eqn:Hflag.
  - now rewrite pipe_loop_flag_set.
  - rewrite pipe_loop_step by exact Hflag.
    assert (Hopt : optional tt value ctx
                   = (Normal value, Ctx.set_abortPipe true ctx))
      by (destruct value; try discriminate; reflexivity).
    rewrite Hopt, pipe_loop_flag_set by reflexivity. reflexivity.
Qed.

(** X15 (members that the input does not have).  For a key that the
    input object lacks and that [Object.prototype] does not define,
    [object] calls the member validator on [undefined], at the child
    context of that key.  So a shape whose members are all pipes that
    start with [optional()] accepts an object that has none of the keys,
    when none of them is defined by [Object.prototype], and returns an
    object that has every declared key, bound to [undefined]; and a member
    [required()] on such a key fails with the error of [required], located
    at the path of the context followed by the dotted key, with
    [undefined] as actual.  For a key that the input lacks and that
    [Object.prototype] defines as a data property ([toString],
    [constructor], ...), the member validator is called on the inherited
    function instead: on an empty object, a member
    [pipe(optional(), string())] under the key [toString] fails with the
    error of [string]. *)
Theorem X15_object_missing_members :
  forall (msg : option str) (props : list (str * Value)) (ctx : Ctx.t),
    (forall members : list (str * list Validator),
       NoDup (map fst members) ->
       (forall key,
          In key (map fst members) ->
          ~ In key (map fst props) /\ on_Object_prototype key = false) ->
       object (map (fun m => (fst m, pipe (optional tt :: snd m))) members)
         msg (VObj props) ctx
       = (Normal (VObj (map (fun m => (fst m, VUndefined)) members)), ctx))
    /\ (forall (key : str) (msg' : option str) (rest : Shape),
          ~ In key (map fst props) ->
          on_Object_prototype key = false ->
          object ((key, required msg') :: rest) msg (VObj props) ctx
          = (Throw (own_failure msg' VUndefined "required"
                      (Ctx.mk (Ctx.path ctx ++ "." ++ key) (KStr key)
                         (Ctx.value ctx) (Ctx.root ctx) VUndefined None)),
             ctx))
    /\ (forall (key : str) (member : Value) (validator : Validator),
          ~ In key (map fst props) ->
          Object_prototype_member key = Some member ->
          member_call ctx (VObj props) key validator
          = fst (validator member (makeCtx (Some ctx) (KStr key) member)))
    /\ (exists e,
          validate (object [("toString", pipe [optional tt; string None])] None)
            (VObj []) None
          = Invalid (ThrownError e) (VObj [])
          /\ ValidationError.expected e = Some "string"
          /\ ValidationError.path e = Some "$.toString"
          /\ ValidationError.actual e = Some (native "toString")).
Proof.
  intros msg props ctx. split; [|split; [|split]].
  - intros members Hnodup Hmissing.
    set (shape := map (fun m : str * list Validator =>
                         (fst m, pipe (optional tt :: snd m))) members).
    set (outs := map (fun m : str * list Validator => (fst m, VUndefined))
                   members).
    assert (Hkeys : map fst shape = map fst members)
      by (unfold shape; rewrite map_map; reflexivity).
    assert (HF : Forall2 (member_output ctx (VObj props)) shape outs).
    { unfold shape, outs. clear Hnodup shape outs Hkeys.
      induction members as [|[key steps] rest IH]; cbn [map]; constructor.
      - split; [reflexivity|]. cbn [fst snd]. unfold member_call. cbn [Get].
        destruct (Hmissing key (or_introl eq_refl)) as [Hno Hproto].
        rewrite (GetProp_missing props key Hno Hproto).
        now rewrite pipe_optional_absent.
      - apply IH. intros k Hk. apply Hmissing. now right. }
    rewrite object_run by reflexivity.
    assert (Hnodup' : NoDup (map fst shape)) by now rewrite Hkeys.
    assert (Hproto' : ~ In "__proto__" (map fst shape)).
    { rewrite Hkeys. intros Hin. destruct (Hmissing _ Hin) as [_ H].
      discriminate H. }
    rewrite (proj2 (object_loop_normal shape (VObj props) ctx [] outs Hnodup'
                      Hproto' (fun k _ H => H))
               (ex_intro _ outs (conj eq_refl HF))).
    reflexivity.
  - intros key msg' rest Hmissing Hproto. unfold object.
    rewrite createValidator_run. cbn [typeof String.eqb Ascii.eqb Bool.eqb].
    cbn [negb is_null isArray orb object_loop Get]. run.
    rewrite (GetProp_missing props key Hmissing Hproto).
    pose proof (required_run msg' VUndefined
                  (makeCtx (Some ctx) (KStr key) VUndefined)) as Hreq.
    cbn [eq_null] in Hreq. destruct Hreq as [m Hm].
    unfold required in Hm |- *. rewrite createValidator_run in Hm |- *.
    cbn [eq_null] in Hm |- *. rewrite throw_new_Error_message in Hm |- *.
    reflexivity.
  - intros key member validator Hmissing Hmember. unfold member_call.
    cbn [Get]. now rewrite (GetProp_inherited props key member Hmissing Hmember).
  - eexists. split; [reflexivity|]. split; [reflexivity|].
    split; reflexivity.
Qed.

Lemma X15_object_missing_members_witness :
  object [("nick", pipe [optional tt; string None]);
          ("age", pipe [optional tt; number None])]
    None (VObj [("name", VStr "nana")]) Sample.ctx1
  = (Normal (VObj [("nick", VUndefined); ("age", VUndefined)]), Sample.ctx1).
Proof.
  refine (proj1 (X15_object_missing_members None [("name", VStr "nana")]
                   Sample.ctx1)
            [("nick", [string None]); ("age", [number None])] _ _).
  - cbn. constructor.
    + intros [H | []]. discriminate H.
    + constructor; [intros [] | constructor].
  - intros key [<- | [<- | []]]; (split; [|reflexivity]);
      intros [H | []]; discriminate H.
Defined.

(** X16 (what a validator built by [createValidator] lets out).  Such a
    validator returns what its handler returns, with the context as the
    handler left it.  When the handler throws an [Error], the validator
    throws that [Error], stamped unless it carries a non-empty [expected]
    already; when the handler throws a primitive value, the validator
    throws a new [Error] whose message is the text that [String] gives the
    value, stamped with the validator's name, the input and the location
    of the context. *)
Theorem X16_createValidator_normalises :
  forall (Args : Type) (name : str) (handler : Value -> Args -> M Value)
         (args : Args) (value : Value) (ctx : Ctx.t),
    (forall r ctx',
       handler value args ctx = (Normal r, ctx') ->
       createValidator name handler args value ctx = (Normal r, ctx'))
    /\ (forall e ctx',
          handler value args ctx = (Throw (ThrownError e), ctx') ->
          createValidator name handler args value ctx
          = (Throw (ThrownError (enrich name value ctx' e)), ctx'))
    /\ (forall v ctx',
          is_primitive v = true ->
          handler value args ctx = (Throw (ThrownValue v), ctx') ->
          exists text,
            String_ v = Normal text
            /\ createValidator name handler args value ctx
               = (Throw (ThrownError
                           (ValidationError.mk text (Some name) (Some value)
                              (Some (Ctx.path ctx')) (Some (Ctx.key ctx'))
                              (Some (Ctx.parent ctx')) (Some (Ctx.root ctx')))),
                  ctx')).
Proof.
  intros Args name handler args value ctx. split; [|split].
  - intros r ctx' Hh. now rewrite createValidator_run, Hh.
  - intros e ctx' Hh. now rewrite createValidator_run, Hh.
  - intros v ctx' Hprim Hh.
    assert (Htext : exists text, String_ v = Normal text)
      by (destruct v; try discriminate; eexists; reflexivity).
    destruct Htext as [text Htext]. exists text. split; [exact Htext|].
    rewrite createValidator_run, Hh. unfold rethrown. cbn [as_Error].
    rewrite Htext. reflexivity.
Qed.

(** X17 (an [optional()] gates its own pipe only).  On null and
    undefined, and on a context without the flag, a pipe that starts with
    [optional()] and sits as the first step of an outer pipe returns the
    value and clears the flag, so the outer pipe goes on: it runs its
    remaining steps on the value.  The same steps written in one flat pipe
    are all skipped. *)
Theorem X17_nested_optional :
  forall (inner rest : list Validator) (value : Value) (ctx : Ctx.t),
    eq_null value = true ->
    truthy_flag (Ctx.__abortPipe ctx) = false ->
    pipe (pipe (optional tt :: inner) :: rest) value ctx
    = pipe rest value (Ctx.delete_abortPipe ctx)
    /\ pipe (optional tt :: (inner ++ rest)%list) value ctx
       = (Normal value, Ctx.delete_abortPipe ctx).
Proof.
  intros inner rest value ctx Hnull Hflag. split.
  - rewrite (pipe_run (_ :: rest)), pipe_loop_step by exact Hflag.
    rewrite pipe_optional_absent by exact Hnull.
    rewrite pipe_run. reflexivity.
  - now apply pipe_optional_absent.
Qed.

Lemma X17_nested_optional_witness :
  (exists e,
     pipe [pipe [optional tt; string None]; number None] VNull Sample.ctx1
     = (Throw (ThrownError e), Ctx.delete_abortPipe Sample.ctx1)
     /\ ValidationError.expected e = Some "number")
  /\ pipe [optional tt; string None; number None] VNull Sample.ctx1
     = (Normal VNull, Ctx.delete_abortPipe Sample.ctx1).
Proof.
  destruct (X17_nested_optional [string None] [number None] VNull Sample.ctx1
              eq_refl eq_refl) as [Hnested Hflat].
  split.
  - eexists. split; [rewrite Hnested; reflexivity | reflexivity].
  - exact Hflat.
Defined.
